(** * Schema compiler of the Iceberg table stack: [lib/utils.ts]

    A shallow embedding of the three functions of [lib/utils.ts] that turn a
    JSON schema into the column list of a [CREATE TABLE] statement:

    - [validatedFieldName]        (the field-name sanitizer),
    - [parseSqlSchemaFromObject]  (the recursive type mapper, with the
                                   optional [mapping] overlay),
    - [readSqlSchemaFromJson]     (the loader that unwraps the outer struct).

    The model starts from the value [JSON.parse] returns and follows the
    host language on every value the functions can meet: objects, arrays,
    strings, numbers, booleans, [null] and [undefined].  Two things are
    bounded: a string is a sequence of 8-bit code units (the Latin-1 part
    of a JavaScript string), and the text of a number is modelled where it
    is the number's own decimal: on the safe integers and on the numbers
    of at most 15 significant digits. *)

From Stdlib Require Import String Ascii List ZArith Lia Bool.
From Stdlib Require Import Numbers.DecimalString Numbers.DecimalPos.
From Stdlib Require Import Numbers.DecimalZ Numbers.DecimalNat.
Import ListNotations.

Open Scope list_scope.
Open Scope string_scope.

(** ** Strings as the host sees them *)

Module Str.

Definition code (c : ascii) : nat := nat_of_ascii c.

Definition between (lo hi : nat) (c : ascii) : bool :=
  (lo <=? code c)%nat && (code c <=? hi)%nat.

(** [String.prototype.toLowerCase] on one code unit below 256: the ASCII
    capitals and the Latin-1 capitals (U+00C0 to U+00DE, the multiplication
    sign U+00D7 apart) move up by 32, every other unit stays. *)
Definition lower_char (c : ascii) : ascii :=
  if between 65 90 c then ascii_of_nat (code c + 32)
  else if between 192 222 c && negb (code c =? 215)%nat
       then ascii_of_nat (code c + 32)
       else c.

Fixpoint toLowerCase (s : string) : string :=
  match s with
  | EmptyString => EmptyString
  | String c r => String (lower_char c) (toLowerCase r)
  end.

(** [s.replace(re, "")] for a global regular expression that is the
    complement of a character class: the units of the class are kept. *)
Fixpoint keep (p : ascii -> bool) (s : string) : string :=
  match s with
  | EmptyString => EmptyString
  | String c r => if p c then String c (keep p r) else keep p r
  end.

Fixpoint forallb (p : ascii -> bool) (s : string) : bool :=
  match s with
  | EmptyString => true
  | String c r => p c && forallb p r
  end.

(** [Array.prototype.includes] on an array of strings. *)
Fixpoint includes (l : list string) (s : string) : bool :=
  match l with
  | [] => false
  | x :: r => String.eqb x s || includes r s
  end.

(** [Array.prototype.join]. *)
Fixpoint join (sep : string) (l : list string) : string :=
  match l with
  | [] => ""
  | [x] => x
  | x :: r => x ++ sep ++ join sep r
  end.

Fixpoint startsWith (s p : string) {struct p} : bool :=
  match p with
  | EmptyString => true
  | String a p' =>
      match s with
      | EmptyString => false
      | String b s' => Ascii.eqb a b && startsWith s' p'
      end
  end.

Fixpoint rev_acc (s acc : string) : string :=
  match s with
  | EmptyString => acc
  | String c r => rev_acc r (String c acc)
  end.

Definition rev (s : string) : string := rev_acc s "".

Definition endsWith (s p : string) : bool := startsWith (rev s) (rev p).

(** [s.substring(a, b)] for [a <= b <= s.length]. *)
Definition substring (a b : nat) (s : string) : string :=
  String.substring a (b - a) s.

End Str.

(** ** The field-name sanitizer *)

(** Keywords that are reserved in Athena DDL queries (utils.ts, l. 59-77). *)
Definition RESERVED_KEYWORDS : list string :=
  [ "all"; "alter"; "and"; "array"; "as"; "authorization"; "between"; "bigint";
    "binary"; "boolean"; "both"; "by"; "case"; "cashe"; "cast"; "char"; "column";
    "conf"; "constraint"; "commit"; "create"; "cross"; "cube"; "current";
    "current_date"; "current_timestamp"; "cursor"; "database"; "date";
    "dayofweek"; "decimal"; "delete"; "describe"; "distinct"; "double"; "drop";
    "else"; "end"; "exchange"; "exists"; "extended"; "external"; "extract";
    "false"; "fetch"; "float"; "floor"; "following"; "for"; "foreign"; "from";
    "full"; "function"; "grant"; "group"; "grouping"; "having"; "if"; "import";
    "in"; "inner"; "insert"; "int"; "integer"; "intersect"; "interval"; "into";
    "is"; "join"; "lateral"; "left"; "less"; "like"; "local"; "macro"; "map";
    "more"; "none"; "not"; "null"; "numeric"; "of"; "on"; "only"; "or"; "order";
    "out"; "outer"; "over"; "partialscan"; "partition"; "percent"; "preceding";
    "precision"; "preserve"; "primary"; "procedure"; "range"; "reads"; "reduce";
    "regexp"; "references"; "revoke"; "right"; "rlike"; "rollback"; "rollup";
    "row"; "rows"; "select"; "set"; "smallint"; "start"; "table"; "tablesample";
    "then"; "time"; "timestamp"; "to"; "transform"; "trigger"; "true"; "truncate";
    "unbounded"; "union"; "uniquejoin"; "update"; "user"; "using"; "utc_timestamp";
    "values"; "varchar"; "views"; "when"; "where"; "window"; "with" ].

(** The character class [[a-zA-Z0-9_-]] of the sanitizer's regular
    expression. *)
Definition legal_char (c : ascii) : bool :=
  Str.between 97 122 c || Str.between 65 90 c || Str.between 48 57 c
  || Ascii.eqb c "_" || Ascii.eqb c "-".

(** [fieldName.replace(/[^a-zA-Z0-9_-]/g, "")]. *)
Definition strip_illegal (s : string) : string := Str.keep legal_char s.

Definition is_reserved (fieldName : string) : bool :=
  Str.includes RESERVED_KEYWORDS (Str.toLowerCase fieldName).

Definition validatedFieldName (fieldName : string) : string :=
  if (String.length fieldName =? 0)%nat then ""
  else if is_reserved fieldName
       then "`" ++ strip_illegal fieldName ++ "`"
       else strip_illegal fieldName.

(** ** Values of the host language

    [JSON.parse] yields a value of [json]; an object is the list of its own
    enumerable properties in the order [for ... in] and [Object.keys]
    enumerate them, with pairwise distinct keys.  [None : option json]
    stands for [undefined]. *)

(** A number is held as the decimal a JSON text writes: [Decimal m e] is
    [m * 10^e], so that 5.5 is [Decimal 55 (-1)], 5.0 is [Decimal 50 (-1)]
    and 1e21 is [Decimal 1 21].  An integer [z] is [Decimal z 0]. *)
Inductive number : Type :=
| Decimal (mantissa exponent : Z).

Definition Int (z : Z) : number := Decimal z 0.

Coercion Int : Z >-> number.

Unset Elimination Schemes.

Inductive json : Type :=
| JNull
| JBool (b : bool)
| JNum (x : number)
| JStr (s : string)
| JArr (items : list json)
| JObj (fields : list (string * json)).

Set Elimination Schemes.

Arguments JNum x%_Z.

(** ** Induction on a value through the properties of its objects *)

Section ValueInduction.
Variable P : json -> Prop.
Hypothesis Hnull : P JNull.
Hypothesis Hbool : forall b, P (JBool b).
Hypothesis Hnum : forall z, P (JNum z).
Hypothesis Hstr : forall s, P (JStr s).
Hypothesis Harr : forall items, Forall P items -> P (JArr items).
Hypothesis Hobj :
  forall fields, Forall (fun kv => P (snd kv)) fields -> P (JObj fields).

Fixpoint json_ind (j : json) : P j :=
  match j with
  | JNull => Hnull
  | JBool b => Hbool b
  | JNum z => Hnum z
  | JStr s => Hstr s
  | JArr items =>
      Harr items
        ((fix all (l : list json) : Forall P l :=
            match l with
            | [] => Forall_nil P
            | x :: r => Forall_cons x (json_ind x) (all r)
            end) items)
  | JObj fields =>
      Hobj fields
        ((fix all (l : list (string * json))
            : Forall (fun kv => P (snd kv)) l :=
            match l with
            | [] => Forall_nil _
            | kv :: r => Forall_cons kv (json_ind (snd kv)) (all r)
            end) fields)
  end.
End ValueInduction.

(** What the program throws: its two [Error]s, and the two errors the host
    raises for it (a property read on [undefined] or [null], and the
    exhaustion of the call stack). *)
Inductive error : Type :=
| UnsupportedType (t : string)
| UnknownType (t : string)
| TypeError
| RangeError.

Definition message (e : error) : string :=
  match e with
  | UnsupportedType t =>
      "Data type '" ++ t ++ "' is not supported by Iceberg schema."
  | UnknownType t => "Unknown data type '" ++ t ++ "'."
  | TypeError => "TypeError"
  | RangeError => "Maximum call stack size exceeded"
  end.

(** A call returns, throws, or leaves the fragment of the host that is
    modelled here ([Unmodelled]: the text of a number that is neither a
    safe integer nor written with at most 15 significant digits, or of a
    string or array converted by [Number]). *)
Inductive outcome (A : Type) : Type :=
| Return (a : A)
| Throw (e : error)
| Unmodelled.

Arguments Return {A} a.
Arguments Throw {A} e.
Arguments Unmodelled {A}.

Definition bind {A B : Type} (m : outcome A) (k : A -> outcome B)
  : outcome B :=
  match m with
  | Return a => k a
  | Throw e => Throw e
  | Unmodelled => Unmodelled
  end.

Notation "x <- m ;; k" := (bind m (fun x => k))
  (at level 61, m at next level, right associativity).

(** Own-property read [o[k]] on the property list of an object. *)
Fixpoint lookup (k : string) (l : list (string * json)) : option json :=
  match l with
  | [] => None
  | (k', v) :: r => if String.eqb k k' then Some v else lookup k r
  end.

(** [x[k]] for a value [x] that is neither [null] nor [undefined] and a key
    among those the program reads ("type", "properties", "items",
    "precision", "scale", "key", "value"): only an object has them. *)
Definition get (x : json) (k : string) : option json :=
  match x with
  | JObj fields => lookup k fields
  | _ => None
  end.

(** [typeof data["type"] === "string"]. *)
Definition string_type (fields : list (string * json)) : option string :=
  match lookup "type" fields with
  | Some (JStr t) => Some t
  | _ => None
  end.

(** Decimal numerals, for array indices and for [Number.prototype.toString]
    on a safe integer. *)
Definition nat_text (n : nat) : string :=
  NilZero.string_of_uint (Nat.to_uint n).
Definition Z_text (z : Z) : string := NilZero.string_of_int (Z.to_int z).

Definition MAX_SAFE_INTEGER : Z := 9007199254740991.
Definition safe_integer (z : Z) : bool := (Z.abs z <=? MAX_SAFE_INTEGER)%Z.

(** *** The text of a number

    [Number.prototype.toString] prints the shortest decimal that reads back
    as the number.  For a safe integer this is its numeral.  For a number
    written with at most 15 significant digits it is those digits, laid
    out by the position [n] of the decimal point: plainly for
    [-6 < n <= 21], with an exponent otherwise. *)

(** The integer a number is, when it is one. *)
Definition integer_value (x : number) : option Z :=
  let (m, e) := x in
  match e with
  | Z0 => Some m
  | Zpos p => Some (m * 10 ^ Zpos p)%Z
  | Zneg p =>
      if (m mod 10 ^ Zpos p =? 0)%Z then Some (m / 10 ^ Zpos p)%Z else None
  end.

Fixpoint drop_zeros (s : string) : string :=
  match s with
  | String "0" r => drop_zeros r
  | _ => s
  end.

(** The digits of a non-zero integer, without its sign and without its
    trailing zeros. *)
Definition significand (m : Z) : string :=
  Str.rev (drop_zeros (Str.rev (Z_text (Z.abs m)))).

Fixpoint zeros (n : nat) : string :=
  match n with
  | O => ""
  | S n' => String "0" (zeros n')
  end.

(** The layout of [Number.prototype.toString] for the digits [s] of a
    number [0.s * 10^n]. *)
Definition layout (s : string) (n : Z) : string :=
  let k := Z.of_nat (String.length s) in
  if ((k <=? n) && (n <=? 21))%Z then s ++ zeros (Z.to_nat (n - k))
  else if ((0 <? n) && (n <=? 21))%Z then
    String.substring 0 (Z.to_nat n) s ++ "."
    ++ String.substring (Z.to_nat n) (Z.to_nat (k - n)) s
  else if ((-6 <? n) && (n <=? 0))%Z then "0." ++ zeros (Z.to_nat (- n)) ++ s
  else
    match s with
    | EmptyString => ""
    | String c r =>
        String c (if (String.length r =? 0)%nat then "" else "." ++ r)
        ++ "e" ++ (if (n - 1 <? 0)%Z then "-" else "+")
        ++ Z_text (Z.abs (n - 1))
    end.

(** The text of a number written with at most 15 significant digits, in
    the range where every such decimal is the shortest that reads back as
    its number. *)
Definition short_text (x : number) : option string :=
  let (m, e) := x in
  if (m =? 0)%Z then Some "0"
  else
    let s := significand m in
    let n := (Z.of_nat (String.length (Z_text (Z.abs m))) + e)%Z in
    if (15 <? String.length s)%nat || (n <? -300)%Z || (300 <? n)%Z then None
    else Some ((if (m <? 0)%Z then "-" else "") ++ layout s n).

Definition number_text (x : number) : option string :=
  match integer_value x with
  | Some z => if safe_integer z then Some (Z_text z) else short_text x
  | None => short_text x
  end.

(** [x === 0] for the number a JSON text gives: the text of zero, or one
    that is not above 2^-1075, half of the least positive number. *)
Definition is_zero (x : number) : bool :=
  let (m, e) := x in
  (m =? 0)%Z || ((e <? 0)%Z && (Z.abs m * 2 ^ 1075 <=? 10 ^ (- e))%Z).

(** The text of [Number(v)] inside a template literal.  An object is
    converted through its "valueOf" and "toString": the inherited
    "valueOf" returns the object itself and the inherited "toString" gives
    "[object Object]", hence [NaN]; an own "valueOf" or "toString" is not a
    function and is passed over, so that with an own "toString" nothing
    converts the object and the host throws. *)
Definition NumberText (v : option json) : outcome string :=
  match v with
  | None => Return "NaN"
  | Some JNull => Return "0"
  | Some (JBool b) => Return (if b then "1" else "0")
  | Some (JNum x) =>
      match number_text x with
      | Some t => Return t
      | None => Unmodelled
      end
  | Some (JObj fields) =>
      match lookup "toString" fields with
      | Some _ => Throw TypeError
      | None => Return "NaN"
      end
  | Some (JStr _) | Some (JArr _) => Unmodelled
  end.

Fixpoint chars (i : nat) (s : string) : list (string * json) :=
  match s with
  | EmptyString => []
  | String c r => (nat_text i, JStr (String c "")) :: chars (S i) r
  end.

Fixpoint elements (i : nat) (l : list json) : list (string * json) :=
  match l with
  | [] => []
  | v :: r => (nat_text i, v) :: elements (S i) r
  end.

(** The keys [for (const key in x)] runs through, each with [x[key]]; also
    [Object.keys(x)] zipped with [Object.values(x)] for [x] other than
    [null]. *)
Definition entries (x : json) : list (string * json) :=
  match x with
  | JNull | JBool _ | JNum _ => []
  | JStr s => chars 0 s
  | JArr items => elements 0 items
  | JObj fields => fields
  end.

Definition struct_of (cols : list string) : string :=
  "struct<" ++ Str.join ", " cols ++ ">".

(** ** The type mapper *)

(** [f(o[k])] on the property list of an object [o], where [absent] is what
    happens when [o] has no own property [k]. *)
Section Find.
Context {A : Type} (f : json -> A) (absent : A) (k : string).

Fixpoint find (l : list (string * json)) : A :=
  match l with
  | [] => absent
  | (k', v) :: r => if String.eqb k k' then f v else find r
  end.
End Find.

Section OpenRecursion.

(** The recursive call [parseSqlSchemaFromObject(child)], without
    [mapping]. *)
Variable rec : json -> outcome string.

(** One pushed element: [`${validatedFieldName(key)}<sep>${rec(value)}`]. *)
Definition column (sep key : string) (value : json) : outcome string :=
  t <- rec value ;; Return (validatedFieldName key ++ sep ++ t).

Fixpoint columns (sep : string) (l : list (string * json))
  : outcome (list string) :=
  match l with
  | [] => Return []
  | (k, v) :: r =>
      c <- column sep k v ;; cs <- columns sep r ;; Return (c :: cs)
  end.

Fixpoint columns_of_items (sep : string) (i : nat) (l : list json)
  : outcome (list string) :=
  match l with
  | [] => Return []
  | v :: r =>
      c <- column sep (nat_text i) v ;;
      cs <- columns_of_items sep (S i) r ;; Return (c :: cs)
  end.

(** The loop [for (const key in x) arr.push(...)] followed by
    [`struct<${arr.join(", ")}>`]; over [null] and [undefined] the loop
    does not run.  On a non-empty string the first iteration calls [rec]
    on a one-character string, whose only key "0" holds that same string
    again: the recursion never ends and the host throws [RangeError]. *)
Definition for_in (sep : string) (x : json) : outcome string :=
  match x with
  | JNull | JBool _ | JNum _ => Return (struct_of [])
  | JStr s => if (String.length s =? 0)%nat then Return (struct_of [])
              else Throw RangeError
  | JArr items => cs <- columns_of_items sep 0 items ;; Return (struct_of cs)
  | JObj fields => cs <- columns sep fields ;; Return (struct_of cs)
  end.

(** [rec(p[k])] for a value [p] and one of the keys "key", "value". *)
Definition rec_at (k : string) (p : json) : outcome string :=
  match p with
  | JObj l => find rec (Throw TypeError) k l
  | _ => Throw TypeError
  end.

(** The branches of a node whose "type" is the string [t]
    (utils.ts, l. 177-212). *)
Definition typed_node (t : string) (fields : list (string * json))
  : outcome string :=
  if t =? "null" then Throw (UnsupportedType t)
  else if t =? "string" then Return "string"
  else if t =? "boolean" then Return "boolean"
  else if t =? "integer" then Return "int"
  else if t =? "number" then Return "float"
  else if t =? "array" then
    i <- find rec (Throw TypeError) "items" fields ;;
    Return ("array<" ++ i ++ ">")
  else if t =? "object" then
    find (for_in ": ") (Return (struct_of [])) "properties" fields
  else if t =? "float" then Return "float"
  else if t =? "date" then Return "date"
  else if t =? "datetime" then Return "timestamp"
  else if t =? "timestamp" then Return "bigint"
  else if t =? "long" then Return "bigint"
  else if t =? "decimal" then
    match lookup "properties" fields with
    | None | Some JNull => Throw TypeError
    | Some p =>
        precision <- NumberText (get p "precision") ;;
        scale <- NumberText (get p "scale") ;;
        Return ("decimal(" ++ precision ++ "," ++ scale ++ ")")
    end
  else if t =? "map" then
    k <- find (rec_at "key") (Throw TypeError) "properties" fields ;;
    v <- find (rec_at "value") (Throw TypeError) "properties" fields ;;
    Return ("map<" ++ k ++ ", " ++ v ++ ">")
  else Throw (UnknownType t).

End OpenRecursion.

(** [parseSqlSchemaFromObject(data)], the call without [mapping]
    (utils.ts, l. 161-213). *)
Fixpoint parseUnmapped (data : json) : outcome string :=
  match data with
  | JNull => Throw TypeError
  | JObj fields =>
      match string_type fields with
      | None =>
          find parseUnmapped (for_in parseUnmapped " " data)
               "properties" fields
      | Some t => typed_node parseUnmapped t fields
      end
  | _ => for_in parseUnmapped " " data
  end.

(** *** The mapping overlay *)

(** [mapping] is an object whose prototype is [Object.prototype]. *)
Definition overlay : Type := list (string * json).

Definition OBJECT_PROTOTYPE_KEYS : list string :=
  [ "constructor"; "__defineGetter__"; "__defineSetter__"; "hasOwnProperty";
    "__lookupGetter__"; "__lookupSetter__"; "isPrototypeOf";
    "propertyIsEnumerable"; "toString"; "valueOf"; "__proto__";
    "toLocaleString" ].

(** [key in mapping]: an own property, or one inherited from
    [Object.prototype]. *)
Definition key_in (key : string) (mapping : overlay) : bool :=
  match lookup key mapping with
  | Some _ => true
  | None => Str.includes OBJECT_PROTOTYPE_KEYS key
  end.

(** The pushed element for a key of the mapping (utils.ts, l. 169-170).
    [Object.keys] throws on [null]; it is empty on a number, a boolean, an
    empty string, array or object and on the functions [Object.prototype]
    holds, and then [validatedFieldName(undefined)] throws. *)
Definition mapped_column (key : string) (mapping : overlay)
  : outcome string :=
  match lookup key mapping with
  | None => Throw TypeError
  | Some e =>
      match entries e with
      | [] => Throw TypeError
      | (newKey, value) :: _ => column parseUnmapped " " newKey value
      end
  end.

Definition grouping_column (mapping : option overlay) (kv : string * json)
  : outcome string :=
  let (key, value) := kv in
  match mapping with
  | Some m =>
      if key_in key m then mapped_column key m
      else column parseUnmapped " " key value
  | None => column parseUnmapped " " key value
  end.

Fixpoint sequence (l : list (outcome string)) : outcome (list string) :=
  match l with
  | [] => Return []
  | m :: r => c <- m ;; cs <- sequence r ;; Return (c :: cs)
  end.

(** The loop of utils.ts, l. 166-175. *)
Definition grouping (mapping : option overlay) (x : json) : outcome string :=
  cs <- sequence (map (grouping_column mapping) (entries x)) ;;
  Return (struct_of cs).

Fixpoint parseSqlSchemaFromObject (data : json) (mapping : option overlay)
  : outcome string :=
  match data with
  | JNull => Throw TypeError
  | JObj fields =>
      match string_type fields with
      | None =>
          find (fun p => parseSqlSchemaFromObject p mapping)
               (grouping mapping data) "properties" fields
      | Some t => typed_node parseUnmapped t fields
      end
  | _ => grouping mapping data
  end.

(** ** The loader

    [fs.readFileSync] and [JSON.parse] are the host's; [data] is the parsed
    document. *)
Definition readSqlSchemaFromJson (data : json) (mapping : option overlay)
  : outcome string :=
  result <- parseSqlSchemaFromObject data mapping ;;
  if Str.startsWith result "struct<" && Str.endsWith result ">"
  then Return (Str.substring 7 (String.length result - 1) result)
  else Return result.

(** ** The root grouping and the specification's view of a column *)

(** The children [parseSqlSchemaFromObject(data, mapping)] loops over with
    [mapping] in hand: those of [data], reached through any chain of
    "properties" wrappers; none when a node with a "type" is met. *)
Fixpoint root_entries (data : json) : list (string * json) :=
  match data with
  | JObj fields =>
      match string_type fields with
      | None => find root_entries fields "properties" fields
      | Some _ => []
      end
  | _ => entries data
  end.

(** Two mappings that give every child in [es] the same column. *)
Definition agree (m1 m2 : option overlay) (es : list (string * json))
  : Prop :=
  forall kv, In kv es -> grouping_column m1 kv = grouping_column m2 kv.

(** The node forms of the specification. *)
Definition implicit_grouping (fields : list (string * json)) : Prop :=
  string_type fields = None /\ lookup "properties" fields = None.

Definition explicit_object (fields props : list (string * json)) : Prop :=
  string_type fields = Some "object"
  /\ lookup "properties" fields = Some (JObj props).

(** One field of a struct: its sanitized name, a separator, its type. *)
Definition field_text (sep : string) (name type : string) : string :=
  validatedFieldName name ++ sep ++ type.

(** [types] are the results of compiling the values of [fields], one by
    one, with no mapping. *)
Definition compiled (fields : list (string * json)) (types : list string)
  : Prop :=
  Forall2 (fun kv t => parseSqlSchemaFromObject (snd kv) None = Return t)
          fields types.

Definition rendered (sep : string) (fields : list (string * json))
           (types : list string) : list string :=
  map (fun p => field_text sep (fst (fst p)) (snd p)) (combine fields types).

(** The column the overlay resolver of the specification gives a direct
    child: the overlay entry's sole key and value when the child's key is in
    the overlay, the child itself otherwise; in both cases the subtree is
    compiled with no mapping. *)
Inductive resolved (m : overlay) : string * json -> string -> Prop :=
| resolved_replaced (key : string) (value : json)
                    (newKey : string) (newValue : json) (t : string) :
    lookup key m = Some (JObj [(newKey, newValue)]) ->
    parseSqlSchemaFromObject newValue None = Return t ->
    resolved m (key, value) (field_text " " newKey t)
| resolved_original (key : string) (value : json) (t : string) :
    key_in key m = false ->
    parseSqlSchemaFromObject value None = Return t ->
    resolved m (key, value) (field_text " " key t).

(** The type keywords with a branch of their own, "null" apart. *)
Definition RECOGNIZED_TYPES : list string :=
  [ "string"; "boolean"; "integer"; "number"; "float"; "date"; "datetime";
    "timestamp"; "long"; "decimal"; "array"; "object"; "map" ].

(** The primitive keywords and their SQL types. *)
Definition PRIMITIVE_TYPES : list (string * string) :=
  [ ("string", "string"); ("boolean", "boolean"); ("integer", "int");
    ("number", "float"); ("float", "float"); ("date", "date");
    ("datetime", "timestamp"); ("timestamp", "bigint"); ("long", "bigint") ].

(** ** Integer numerals *)

Definition digit (c : ascii) : bool := Str.between 48 57 c.

(** A text made of decimal digits only, after an optional minus sign. *)
Definition integer_numeral (s : string) : bool :=
  match s with
  | EmptyString => false
  | String c r =>
      if Ascii.eqb c "-"
      then negb (String.length r =? 0)%nat && Str.forallb digit r
      else Str.forallb digit s
  end.

(** The integer a numeral denotes. *)
Definition Z_of_text (s : string) : option Z :=
  option_map Z.of_int (NilZero.int_of_string s).

(** ** Documents of the specification's examples *)

Module Example.

Definition ty (t : string) : json := JObj [("type", JStr t)].

Definition id_ts : json := JObj [("id", ty "string"); ("ts", ty "timestamp")].

Definition json_str : json := JObj [("json_str", ty "string")].

Definition json_map : json :=
  JObj [("type", JStr "map");
        ("properties", JObj [("key", ty "string"); ("value", ty "integer")])].

Definition json_str_to_json_map : overlay :=
  [("json_str", JObj [("json_map", json_map)])].

Definition other : json :=
  JObj [("other",
         JObj [("type", JStr "object");
               ("properties",
                JObj [("col1", ty "integer"); ("col2", ty "float")])])].

Definition x_null : json := JObj [("x", ty "null")].
Definition x_bogus : json := JObj [("x", ty "bogus")].

Definition decimal (precision scale : json) : json :=
  JObj [("type", JStr "decimal");
        ("properties", JObj [("precision", precision); ("scale", scale)])].

(** A document with the key "json_str" at the root and one level down. *)
Definition json_str_twice : json :=
  JObj [("json_str", ty "string");
        ("nested", JObj [("json_str", ty "string")])].

(** A document with the key "json_str" one level down only. *)
Definition json_str_nested : json :=
  JObj [("nested", JObj [("json_str", ty "string")])].

End Example.

(** ** The sanitizer in the words of its specification *)

Definition LEGAL_CHARACTERS : string :=
  "ABCDEFGHIJKLMNOPQRSTUVWXYZabcdefghijklmnopqrstuvwxyz0123456789_-".

(** Empty input gives empty output; otherwise every character outside
    [LEGAL_CHARACTERS] is dropped, and the result is quoted exactly when the
    lowercase form of the name as given is a reserved word. *)
Definition sanitize (name : string) : string :=
  match name with
  | EmptyString => ""
  | _ =>
      let legal c :=
        existsb (Ascii.eqb c) (list_ascii_of_string LEGAL_CHARACTERS) in
      let stripped :=
        string_of_list_ascii (filter legal (list_ascii_of_string name)) in
      if existsb (String.eqb (Str.toLowerCase name)) RESERVED_KEYWORDS
      then "`" ++ stripped ++ "`"
      else stripped
  end.

(** ** The column of one field *)

(** The column the loop of a grouping pushes for a field (utils.ts,
    l. 167-174): for a key of the mapping, the sanitized first key of the
    mapping's entry and the type of its first value; otherwise the
    sanitized key of the field and the type of its value. *)
Inductive column_of (mapping : option overlay)
  : string * json -> string -> Prop :=
| column_own (key : string) (value : json) (t : string) :
    match mapping with
    | Some m => key_in key m = false
    | None => True
    end ->
    parseSqlSchemaFromObject value None = Return t ->
    column_of mapping (key, value) (field_text " " key t)
| column_mapped (m : overlay) (key : string) (value entry : json)
                (newKey : string) (newValue : json)
                (rest : list (string * json)) (t : string) :
    mapping = Some m ->
    lookup key m = Some entry ->
    entries entry = (newKey, newValue) :: rest ->
    parseSqlSchemaFromObject newValue None = Return t ->
    column_of mapping (key, value) (field_text " " newKey t).

(** ** The mapper, call by call

    [for_in] settles one case ahead of the recursion: the loop over a
    non-empty string.  Here the call without [mapping] is followed as the
    source writes it, every loop being the host's [for ... in] over the
    keys of its value, on a call stack with room for [depth] nested calls:
    the call that finds no room throws [RangeError]. *)

Section Frame.

(** The nested call, one frame deeper. *)
Variable rec : json -> outcome string.

(** The loops of l. 166-175 (without [mapping]) and of l. 190-193. *)
Definition loop (sep : string) (x : json) : outcome string :=
  cs <- sequence
          (map (fun kv => column rec sep (fst kv) (snd kv)) (entries x)) ;;
  Return (struct_of cs).

(** The branches of l. 177-212; only that of "object" has a loop. *)
Definition node (t : string) (fields : list (string * json))
  : outcome string :=
  if t =? "object" then
    find (loop ": ") (Return (struct_of [])) "properties" fields
  else typed_node rec t fields.

End Frame.

Fixpoint parseWithin (depth : nat) (data : json) : outcome string :=
  match depth with
  | O => Throw RangeError
  | S d =>
      match data with
      | JNull => Throw TypeError
      | JObj fields =>
          match string_type fields with
          | None =>
              find (parseWithin d) (loop (parseWithin d) " " data)
                   "properties" fields
          | Some t => node (parseWithin d) t fields
          end
      | _ => loop (parseWithin d) " " data
      end
  end.

(** The number of arrays and objects nested in a value. *)
Fixpoint nesting (x : json) : nat :=
  match x with
  | JArr items => S (fold_right (fun v h => Nat.max (nesting v) h) 0 items)
  | JObj fields =>
      S (fold_right (fun kv h => Nat.max (nesting (snd kv)) h) 0 fields)
  | _ => 0
  end.

(** ** Resource names (utils.ts, l. 215-302) *)

Fixpoint skip (n : nat) (s : string) : string :=
  match n, s with
  | O, _ => s
  | S _, EmptyString => EmptyString
  | S n', String _ r => skip n' r
  end.

Fixpoint lastIndexOf_down (s search : string) (k : nat) : Z :=
  if Str.startsWith (skip k s) search then Z.of_nat k
  else match k with
       | O => (-1)%Z
       | S k' => lastIndexOf_down s search k'
       end.

(** [s.lastIndexOf(search, position)]: the largest index at which
    [search] occurs in [s] among those not above [position], -1 when there
    is none. *)
Definition lastIndexOf (s search : string) (position : nat) : Z :=
  if (String.length s <? String.length search)%nat then (-1)%Z
  else lastIndexOf_down s search
         (Nat.min position (String.length s - String.length search)).

Definition startsWith (baseString subString : string) : bool :=
  (lastIndexOf baseString subString 0 =? 0)%Z.

(** What the functions read off the construct tree: the region and the
    account of the stack, and, for the custom resource [getParameter]
    creates under a construct id for a parameter name, the token that
    stands for its response field 'Parameter.Value'. *)
Record Scope : Type := {
  region : string;
  account : string;
  responseField : string -> string -> string
}.

Definition getParameter (scope : Scope) (id paramName : string) : string :=
  responseField scope id paramName.

(** The two [Error]s of [getArn]. *)
Inductive arn_error : Type :=
| CanNotResolve
| MustBeArn (param : string).

Definition arn_message (e : arn_error) : string :=
  match e with
  | CanNotResolve =>
      "Can not resolve parameter. Please provide both 'service' and 'resource'."
  | MustBeArn param =>
      "The parameter '" ++ param
      ++ "' must be an ARN, SSM parameter key or valid resource name."
  end.

Inductive attempt (E A : Type) : Type :=
| Success (a : A)
| Failure (e : E).

Arguments Success {E A} a.
Arguments Failure {E A} e.

Definition noRegionServices : list string := ["s3"].
Definition noAccountServices : list string := ["s3"].

Definition getArn (scope : Scope) (id param : string)
           (service resource : option string) : attempt arn_error string :=
  let isArn := startsWith param "arn" in
  let isSsm := startsWith param "/" in
  if isArn then Success param
  else if isSsm && negb isArn then Success (getParameter scope id param)
  else if negb isSsm && negb isArn then
    match service with
    | None => Failure CanNotResolve
    | Some service =>
        let region :=
          if Str.includes noRegionServices service then "" else region scope in
        let account :=
          if Str.includes noAccountServices service then ""
          else account scope in
        let res :=
          match resource with
          | None => ""
          | Some r => if (String.length r =? 0)%nat then "" else r ++ "/"
          end in
        Success ("arn:aws:" ++ service ++ ":" ++ region ++ ":" ++ account
                 ++ ":" ++ res ++ param)
    end
  else Failure (MustBeArn param).

(** ** The table stack (icebergTableStack.ts) *)

Module IcebergTableStack.

(** [TableBuildProps] (interfaces.ts); an optional property is [None]
    when it is undefined. *)
Record TableBuildProps : Type := {
  icebergTableName : string;
  columns : option string;
  extraColumns : option (list string);
  databaseName : string;
  catalogName : string;
  schemaFileName : string;
  mapping : option overlay;
  bucketName : string;
  bucketPrefix : option string;
  outputBucketName : option string;
  outputBucketPrefix : option string;
  schemaBucketName : option string;
  schemaBucketPrefix : option string;
  partitionedBy : option (list string);
  onCreateQuery : option string;
  onUpdateQuery : option string;
  onDeleteQuery : option string
}.

(** [x ?? d] on an optional string. *)
Definition orElse (x : option string) (d : string) : string :=
  match x with
  | Some v => v
  | None => d
  end.

(** l. 38-44. *)
Definition getPartitionedBy (partitionedBy : option (list string)) : string :=
  match partitionedBy with
  | Some l =>
      if (0 <? List.length l)%nat
      then "PARTITIONED BY (" ++ Str.join ", " l ++ ") "
      else ""
  | None => ""
  end.

(** [getSdkCall] (utils.ts, l. 18-34). *)
Record AwsSdkCall : Type := {
  service : string;
  action : string;
  Database : string;
  QueryString : string;
  OutputLocation : string;
  WorkGroup : string;
  physicalResourceId : string
}.

Definition getSdkCall (tableName query databaseName outputLocation : string)
  : AwsSdkCall :=
  {| service := "Athena";
     action := "startQueryExecution";
     Database := databaseName;
     QueryString := query;
     OutputLocation := outputLocation;
     WorkGroup := "primary";
     physicalResourceId := "CustomResourceIcebergTable-" ++ tableName |}.

(** l. 79-87: the bucket given, when its name is a non-empty string,
    otherwise the runtime bucket published in the parameter store. *)
Definition outputLocation (scope : Scope) (prefix env : string)
           (props : TableBuildProps) : string :=
  let runtime :=
    let runtimeBucketName :=
      getParameter scope (prefix ++ "-RuntimeBucketSSM")
        ("/service/data/" ++ env ++ "/published/data-lake/runtime-bucket") in
    "s3://" ++ runtimeBucketName ++ "/" ++ "athena/queries" ++ "/" in
  match outputBucketName props with
  | Some b =>
      if (String.length b =? 0)%nat then runtime
      else "s3://" ++ b ++ "/" ++ orElse (outputBucketPrefix props) ""
  | None => runtime
  end.

(** l. 90. *)
Definition location (props : TableBuildProps) : string :=
  "s3://" ++ bucketName props ++ "/" ++ orElse (bucketPrefix props) ""
  ++ icebergTableName props.

(** l. 91-98, for the column list [cols]. *)
Definition createQuery (props : TableBuildProps) (cols : string) : string :=
  ("CREATE TABLE IF NOT EXISTS " ++ icebergTableName props ++ " ")
  ++ "("
  ++ cols
  ++ match extraColumns props with
     | Some l => ", " ++ Str.join ", " l
     | None => ""
     end
  ++ ") "
  ++ getPartitionedBy (partitionedBy props)
  ++ ("LOCATION '" ++ location props ++ "' ")
  ++ "TBLPROPERTIES ('table_type'='ICEBERG', 'format'='parquet', 'write_compression'='snappy')".

(** The three calls of the custom resource (l. 128-136). *)
Record CustomResource : Type := {
  onCreate : AwsSdkCall;
  onDelete : option AwsSdkCall;
  onUpdate : option AwsSdkCall
}.

(** [createTable] up to the custom resource (l. 57-136): what is computed
    for its three calls.  [schema] is the parsed content of the schema
    file, which is compiled only when [props.columns] is undefined. *)
Definition createTable (scope : Scope) (prefix env : string)
           (props : TableBuildProps) (schema : json) : outcome CustomResource :=
  let out := outputLocation scope prefix env props in
  cols <- match columns props with
          | Some c => Return c
          | None => readSqlSchemaFromJson schema (mapping props)
          end ;;
  let call q :=
    getSdkCall (icebergTableName props) q (databaseName props) (out ++ "ddl/") in
  Return {| onCreate := match onCreateQuery props with
                        | None => call (createQuery props cols)
                        | Some q => call q
                        end;
            onDelete := option_map call (onDeleteQuery props);
            onUpdate := option_map call (onUpdateQuery props) |}.

(** The properties of the example application (its table stack). *)
Definition example_props : TableBuildProps :=
  {| icebergTableName := "example_table";
     columns := None;
     extraColumns := None;
     databaseName := "datalakehouse";
     catalogName := "glue_catalog";
     schemaFileName := "example_table.schema.json";
     mapping := None;
     bucketName := "datalakehouse.iceberg-example";
     bucketPrefix := Some "";
     outputBucketName := None;
     outputBucketPrefix := None;
     schemaBucketName := Some "datalakehouse.iceberg-example";
     schemaBucketPrefix := Some "example_table/schemas/";
     partitionedBy := Some ["uid"; "ts"];
     onCreateQuery := None;
     onUpdateQuery := None;
     onDeleteQuery := None |}.

Definition example_scope : Scope :=
  {| region := "eu-west-1";
     account := "1234567890";
     responseField := fun id name => "${Token[" ++ id ++ "]}" |}.

(** Properties that differ from [props] in one field. *)
Definition with_columns (c : option string) (props : TableBuildProps)
  : TableBuildProps :=
  {| icebergTableName := icebergTableName props;
     columns := c;
     extraColumns := extraColumns props;
     databaseName := databaseName props;
     catalogName := catalogName props;
     schemaFileName := schemaFileName props;
     mapping := mapping props;
     bucketName := bucketName props;
     bucketPrefix := bucketPrefix props;
     outputBucketName := outputBucketName props;
     outputBucketPrefix := outputBucketPrefix props;
     schemaBucketName := schemaBucketName props;
     schemaBucketPrefix := schemaBucketPrefix props;
     partitionedBy := partitionedBy props;
     onCreateQuery := onCreateQuery props;
     onUpdateQuery := onUpdateQuery props;
     onDeleteQuery := onDeleteQuery props |}.

Definition with_extraColumns (e : option (list string))
           (props : TableBuildProps) : TableBuildProps :=
  {| icebergTableName := icebergTableName props;
     columns := columns props;
     extraColumns := e;
     databaseName := databaseName props;
     catalogName := catalogName props;
     schemaFileName := schemaFileName props;
     mapping := mapping props;
     bucketName := bucketName props;
     bucketPrefix := bucketPrefix props;
     outputBucketName := outputBucketName props;
     outputBucketPrefix := outputBucketPrefix props;
     schemaBucketName := schemaBucketName props;
     schemaBucketPrefix := schemaBucketPrefix props;
     partitionedBy := partitionedBy props;
     onCreateQuery := onCreateQuery props;
     onUpdateQuery := onUpdateQuery props;
     onDeleteQuery := onDeleteQuery props |}.

Definition with_partitionedBy (q : option (list string))
           (props : TableBuildProps) : TableBuildProps :=
  {| icebergTableName := icebergTableName props;
     columns := columns props;
     extraColumns := extraColumns props;
     databaseName := databaseName props;
     catalogName := catalogName props;
     schemaFileName := schemaFileName props;
     mapping := mapping props;
     bucketName := bucketName props;
     bucketPrefix := bucketPrefix props;
     outputBucketName := outputBucketName props;
     outputBucketPrefix := outputBucketPrefix props;
     schemaBucketName := schemaBucketName props;
     schemaBucketPrefix := schemaBucketPrefix props;
     partitionedBy := q;
     onCreateQuery := onCreateQuery props;
     onUpdateQuery := onUpdateQuery props;
     onDeleteQuery := onDeleteQuery props |}.

Definition with_onCreateQuery (q : option string) (props : TableBuildProps)
  : TableBuildProps :=
  {| icebergTableName := icebergTableName props;
     columns := columns props;
     extraColumns := extraColumns props;
     databaseName := databaseName props;
     catalogName := catalogName props;
     schemaFileName := schemaFileName props;
     mapping := mapping props;
     bucketName := bucketName props;
     bucketPrefix := bucketPrefix props;
     outputBucketName := outputBucketName props;
     outputBucketPrefix := outputBucketPrefix props;
     schemaBucketName := schemaBucketName props;
     schemaBucketPrefix := schemaBucketPrefix props;
     partitionedBy := partitionedBy props;
     onCreateQuery := q;
     onUpdateQuery := onUpdateQuery props;
     onDeleteQuery := onDeleteQuery props |}.

Definition with_outputBucketPrefix (q : option string)
           (props : TableBuildProps) : TableBuildProps :=
  {| icebergTableName := icebergTableName props;
     columns := columns props;
     extraColumns := extraColumns props;
     databaseName := databaseName props;
     catalogName := catalogName props;
     schemaFileName := schemaFileName props;
     mapping := mapping props;
     bucketName := bucketName props;
     bucketPrefix := bucketPrefix props;
     outputBucketName := outputBucketName props;
     outputBucketPrefix := q;
     schemaBucketName := schemaBucketName props;
     schemaBucketPrefix := schemaBucketPrefix props;
     partitionedBy := partitionedBy props;
     onCreateQuery := onCreateQuery props;
     onUpdateQuery := onUpdateQuery props;
     onDeleteQuery := onDeleteQuery props |}.

End IcebergTableStack.

(** ** Parameters of the parameter store (utils.ts, l. 304-359) *)

Module SSM.

(** What [resolveSSMParameters] keeps and leaves behind: its counter, and
    the calls of [getParameter] it made, each as the construct id and the
    parameter name, in order. *)
Record state : Type := {
  counter : nat;
  requested : list (string * string)
}.

(** [resolvedObj[key] = x] on [resolvedObj], an object literal that has no
    [key] yet.  The key "__proto__" is the accessor every object inherits:
    assigning to it adds no property. *)
Definition assign (resolvedObj : list (string * json)) (key : string)
           (x : json) : list (string * json) :=
  if String.eqb key "__proto__" then resolvedObj
  else (resolvedObj ++ [(key, x)])%list.

Section Resolve.

Variable scope : Scope.
Variable id : string.

(** [counter ++] and [getParameter(scope, `${id}-${counter}`, value)]. *)
Definition request (name : string) (st : state) : json * state :=
  let n := S (counter st) in
  let construct := id ++ "-" ++ nat_text n in
  (JStr (getParameter scope construct name),
   {| counter := n;
      requested := (requested st ++ [(construct, name)])%list |}).

Section Fields.

Variable rec : json -> state -> outcome (json * state).

(** The loop over [Object.keys(currentObj)] (l. 321-350).  [typeof value]
    is "object" for an object, for an array and for [null]; the branch for
    [Array.isArray(value)], which comes after it, is never entered. *)
Fixpoint resolve_fields (l resolvedObj : list (string * json)) (st : state)
  : outcome (list (string * json) * state) :=
  match l with
  | [] => Return (resolvedObj, st)
  | (key, value) :: r =>
      match value with
      | JStr s =>
          if Str.startsWith s "/"
          then let (token, st') := request s st in
               resolve_fields r (assign resolvedObj key token) st'
          else resolve_fields r (assign resolvedObj key value) st
      | JNull | JArr _ | JObj _ =>
          p <- rec value st ;;
          resolve_fields r (assign resolvedObj key (fst p)) (snd p)
      | JBool _ | JNum _ =>
          resolve_fields r (assign resolvedObj key value) st
      end
  end.

End Fields.

(** [typeof currentObj === "object" && !Array.isArray(currentObj)] holds
    of an object and of [null], on which [Object.keys] throws. *)
Fixpoint recursiveResolve (currentObj : json) (st : state)
  : outcome (json * state) :=
  match currentObj with
  | JNull => Throw TypeError
  | JObj fields =>
      p <- resolve_fields recursiveResolve fields [] st ;;
      Return (JObj (fst p), snd p)
  | _ => Return (currentObj, st)
  end.

Definition resolveSSMParameters (obj : json) : outcome (json * state) :=
  recursiveResolve obj {| counter := 0; requested := [] |}.

End Resolve.

(** A [null] that the traversal meets: the value itself, or the value of
    a field, at any depth of objects. *)
Fixpoint meets_null (j : json) : bool :=
  match j with
  | JNull => true
  | JObj fields => existsb (fun kv => meets_null (snd kv)) fields
  | _ => false
  end.

(** The names the traversal takes for parameters: the strings that begin
    with "/" among the values of the fields, at any depth of objects. *)
Fixpoint parameters (j : json) : list string :=
  match j with
  | JObj fields =>
      flat_map (fun kv =>
                  match snd kv with
                  | JStr s => if Str.startsWith s "/" then [s] else []
                  | _ => parameters (snd kv)
                  end) fields
  | _ => []
  end.

(** No key "__proto__" in the objects the traversal goes through. *)
Fixpoint proto_free (j : json) : bool :=
  match j with
  | JObj fields =>
      forallb (fun kv => negb (String.eqb (fst kv) "__proto__")
                         && proto_free (snd kv)) fields
  | _ => true
  end.

(** The construct ids and names of the calls for [names], after [c]
    calls. *)
Fixpoint numbered (id : string) (c : nat) (names : list string)
  : list (string * string) :=
  match names with
  | [] => []
  | name :: r => (id ++ "-" ++ nat_text (S c), name) :: numbered id (S c) r
  end.

(** The names one field contributes. *)
Definition field_parameters (kv : string * json) : list string :=
  match snd kv with
  | JStr s => if Str.startsWith s "/" then [s] else []
  | _ => parameters (snd kv)
  end.

(** What a call that returns has done to the state: it has made the
    calls for [names], numbered on from the counter. *)
Definition advanced (id : string) (names : list string) (st st' : state)
  : Prop :=
  counter st' = counter st + List.length names
  /\ requested st' = (requested st ++ numbered id (counter st) names)%list.

End SSM.

(** ** The versioned stack (versionedStack.ts) *)

Module VersionedStack.

(** [s.split(sep)] for a separator of one character. *)
Fixpoint split (sep : ascii) (s : string) : list string :=
  match s with
  | EmptyString => [""]
  | String c r =>
      if Ascii.eqb c sep then "" :: split sep r
      else match split sep r with
           | [] => [String c ""]
           | part :: parts => String c part :: parts
           end
  end.

(** [id.split("-")[2]] (l. 24-27).  With fewer than three parts it is
    [undefined], which every later use, as a property key and inside
    template literals, turns into the text "undefined". *)
Definition stackId (id : string) : string :=
  nth 2 (split "-" id) "undefined".

(** [!!v] *)
Definition truthy (v : json) : bool :=
  match v with
  | JNull => false
  | JBool b => b
  | JNum x => negb (is_zero x)
  | JStr s => negb (String.length s =? 0)%nat
  | JArr _ | JObj _ => true
  end.

(** The rest of [s] after its leading digits. *)
Fixpoint skip_digits (s : string) : string :=
  match s with
  | EmptyString => EmptyString
  | String c r => if digit c then skip_digits r else s
  end.

(** [\d+] at the head of [s]: the rest, when there is a digit. *)
Definition number_then (s : string) : option string :=
  match s with
  | EmptyString => None
  | String c r => if digit c then Some (skip_digits r) else None
  end.

(** [\.] at the head of [s]. *)
Definition dot_then (s : string) : option string :=
  match s with
  | EmptyString => None
  | String c r => if Ascii.eqb c "." then Some r else None
  end.

Definition and_then (x : option string) (f : string -> option string)
  : option string :=
  match x with
  | Some r => f r
  | None => None
  end.

(** [/^\d+\.\d+\.\d+$/.test(s)] on a string (l. 67-68). *)
Definition versionRegex_test (s : string) : bool :=
  match and_then (and_then (and_then (and_then (number_then s) dot_then)
                                     number_then) dot_then) number_then with
  | Some rest => (String.length rest =? 0)%nat
  | None => false
  end.

(** Whether the conversion of [v] to a string throws.  It does on an
    object with a "toString" of its own, which is no function; the text of
    any other object is "[object Object]".  The text of an array joins
    the texts of its elements, the empty text for [null], with ",". *)
Fixpoint text_throws (v : json) : bool :=
  match v with
  | JObj fields =>
      match lookup "toString" fields with
      | Some _ => true
      | None => false
      end
  | JArr items => existsb text_throws items
  | _ => false
  end.

(** [versionRegex.test(v)] for a value whose conversion does not throw.
    No text of a number, of a boolean or of an object has the form, and
    none with a ","; the text of an array of one element is the text of
    the element. *)
Fixpoint version_test (v : json) : bool :=
  match v with
  | JStr s => versionRegex_test s
  | JArr [x] => version_test x
  | _ => false
  end.

(** What [o[k]] finds on an object [o]. *)
Inductive property : Type :=
| Own (v : json)
| Inherited
| Absent.

Definition read (o : list (string * json)) (k : string) : property :=
  match lookup k o with
  | Some v => Own v
  | None => if Str.includes OBJECT_PROTOTYPE_KEYS k then Inherited else Absent
  end.

(** ** Writing a property

    An object enumerates the keys that are array indices first, in
    ascending order, then the others in the order of their creation. *)

Definition N_text (n : N) : string := NilZero.string_of_uint (N.to_uint n).

(** An array index: the numeral, written as the host writes it, of an
    integer below 2^32 - 1. *)
Definition array_index (k : string) : option N :=
  match NilEmpty.uint_of_string k with
  | Some d =>
      let n := N.of_uint d in
      if String.eqb (N_text n) k && (n <=? 4294967294)%N then Some n
      else None
  | None => None
  end.

Fixpoint insert_index (n : N) (k : string) (v : json)
         (l : list (string * json)) : list (string * json) :=
  match l with
  | [] => [(k, v)]
  | (k', v') :: r =>
      match array_index k' with
      | Some n' =>
          if (n' <? n)%N then (k', v') :: insert_index n k v r
          else (k, v) :: l
      | None => (k, v) :: l
      end
  end.

Definition create_property (k : string) (v : json)
           (l : list (string * json)) : list (string * json) :=
  match array_index k with
  | Some n => insert_index n k v l
  | None => (l ++ [(k, v)])%list
  end.

Fixpoint replace_property (k : string) (v : json)
         (l : list (string * json)) : list (string * json) :=
  match l with
  | [] => []
  | (k', v') :: r =>
      if String.eqb k k' then (k', v) :: r
      else (k', v') :: replace_property k v r
  end.

(** [o[k] = v] for a key that [o] has, or that no object inherits. *)
Definition set_property (k : string) (v : json) (l : list (string * json))
  : list (string * json) :=
  match lookup k l with
  | Some _ => replace_property k v l
  | None => create_property k v l
  end.

(** ** [getVersion] (l. 51-77) *)

(** The [Error] of l. 69, with the stack and the value found, which is
    [None] when it is no JSON value but inherited from [Object.prototype];
    and the host's TypeError. *)
Inductive version_error : Type :=
| InvalidVersionFormat (stackId : string) (currentVersion : option json)
| HostTypeError.

(** A call returns, throws, or leaves what is modelled ([NotModelled]:
    "stackVersions" holds an array, a non-empty string, a number other
    than 0, or [true]). *)
Inductive result (A : Type) : Type :=
| Returned (a : A)
| Thrown (e : version_error)
| NotModelled.

Arguments Returned {A} a.
Arguments Thrown {A} e.
Arguments NotModelled {A}.

(** l. 64-70: [found || "0.0.1"], then the test of the format. *)
Definition checked (stackId : string) (found : property) : result json :=
  match found with
  | Inherited => Thrown (InvalidVersionFormat stackId None)
  | Absent => Returned (JStr "0.0.1")
  | Own v =>
      if truthy v then
        if text_throws v then Thrown HostTypeError
        else if version_test v then Returned v
             else Thrown (InvalidVersionFormat stackId (Some v))
      else Returned (JStr "0.0.1")
  end.

(** [file] is the parsed content of package.json; the result carries the
    version and the content written back.  The code is strict: creating
    a property on a number, a boolean or a string throws.  On an array
    the property is created, but is not written to the file. *)
Definition getVersion (stackId : string) (file : json)
  : result (json * json) :=
  match file with
  | JNull | JBool _ | JNum _ | JStr _ => Thrown HostTypeError
  | JArr _ =>
      match checked stackId (read [] stackId) with
      | Returned v => Returned (v, file)
      | Thrown e => Thrown e
      | NotModelled => NotModelled
      end
  | JObj fields =>
      let present :=
        match lookup "stackVersions" fields with
        | Some v => truthy v
        | None => false
        end in
      let packageJson :=
        if present then fields
        else set_property "stackVersions" (JObj []) fields in
      match lookup "stackVersions" packageJson with
      | Some (JObj stackVersions) =>
          match checked stackId (read stackVersions stackId) with
          | Returned currentVersion =>
              Returned
                (currentVersion,
                 JObj (set_property "stackVersions"
                         (JObj (set_property stackId currentVersion
                                  stackVersions))
                         packageJson))
          | Thrown e => Thrown e
          | NotModelled => NotModelled
          end
      | _ => NotModelled
      end
  end.

(** The output of the constructor (l. 33-36). *)
Record CfnOutput : Type := {
  output_id : string;
  value : json;
  description : string
}.

(** The constructor (l. 20-37), after [super]. *)
Definition construct (id : string) (file : json)
  : result (CfnOutput * json) :=
  match getVersion (stackId id) file with
  | Returned (version, file') =>
      Returned ({| output_id := stackId id ++ "-StackVersion";
                   value := version;
                   description :=
                     "The version of the stack " ++ stackId id ++ "." |},
                file')
  | Thrown e => Thrown e
  | NotModelled => NotModelled
  end.

(** A non-empty run of decimal digits. *)
Definition numeral (a : string) : Prop :=
  Str.forallb digit a = true /\ a <> "".

(** The next character, if any, is no digit. *)
Definition no_digit_ahead (r : string) : Prop :=
  match r with
  | EmptyString => True
  | String c _ => digit c = false
  end.

(** No "-" in a part of a construct id. *)
Definition dashless (a : string) : bool :=
  Str.forallb (fun c => negb (Ascii.eqb c "-")) a.

(** The versions a package.json holds. *)
Definition versions_of (file : json) : list (string * json) :=
  match get file "stackVersions" with
  | Some (JObj versions) => versions
  | _ => []
  end.

End VersionedStack.

(** * Properties of the sanitizer *)

Module Sanitizer.

Lemma legal_char_class (c : ascii) :
  legal_char c = existsb (Ascii.eqb c) (list_ascii_of_string LEGAL_CHARACTERS).
Proof.
  destruct c as [[] [] [] [] [] [] [] []]; vm_compute; reflexivity.
Qed.

Lemma keep_filter (p q : ascii -> bool) (s : string) :
  (forall c, p c = q c) ->
  Str.keep p s = string_of_list_ascii (filter q (list_ascii_of_string s)).
Proof.
  intros Hpq; induction s as [|c r IH]; simpl; [reflexivity|].
  rewrite <- Hpq; destruct (p c); simpl; now rewrite IH.
Qed.

Lemma includes_existsb (l : list string) (s : string) :
  Str.includes l s = existsb (String.eqb s) l.
Proof.
  induction l as [|x r IH]; simpl; [reflexivity|].
  now rewrite IH, (String.eqb_sym x s).
Qed.

Lemma keep_all (p : ascii -> bool) (s : string) :
  Str.forallb p s = true -> Str.keep p s = s.
Proof.
  induction s as [|c r IH]; simpl; [reflexivity|].
  intros H; apply andb_true_iff in H as [Hc Hr].
  now rewrite Hc, IH.
Qed.

Lemma keep_kept (p : ascii -> bool) (s : string) :
  Str.forallb p (Str.keep p s) = true.
Proof.
  induction s as [|c r IH]; simpl; [reflexivity|].
  destruct (p c) eqn:Hc; simpl; [now rewrite Hc|assumption].
Qed.

Lemma strip_illegal_idem (s : string) :
  strip_illegal (strip_illegal s) = strip_illegal s.
Proof. apply keep_all, keep_kept. Qed.

(** A name that is not reserved comes out as its legal characters. *)
Lemma validatedFieldName_plain (name : string) :
  is_reserved name = false -> validatedFieldName name = strip_illegal name.
Proof.
  intros H; unfold validatedFieldName; rewrite H.
  destruct name; reflexivity.
Qed.

(** A reserved name is not empty and comes out quoted. *)
Lemma validatedFieldName_quoted (name : string) :
  is_reserved name = true ->
  validatedFieldName name = "`" ++ strip_illegal name ++ "`".
Proof.
  intros H; unfold validatedFieldName; rewrite H.
  destruct name; [discriminate H|reflexivity].
Qed.

Lemma length_app (s t : string) :
  String.length (s ++ t) = String.length s + String.length t.
Proof. induction s as [|c r IH]; simpl; [reflexivity | now rewrite IH]. Qed.

Lemma quoted_differs (s : string) : "`" ++ s ++ "`" <> s.
Proof.
  intros H; apply (f_equal String.length) in H.
  simpl in H; rewrite length_app in H; simpl in H; lia.
Qed.

(** Every reserved word is written in lowercase, so a name found in the
    list as it stands is also found after lowercasing: [is_reserved]
    holds of every name that is a reserved word, letter for letter. *)
Lemma reserved_lowercase (w : string) :
  Str.includes RESERVED_KEYWORDS w = true -> is_reserved w = true.
Proof.
  unfold is_reserved; intros H.
  assert (Hall : forallb (fun x => String.eqb (Str.toLowerCase x) x)
                   RESERVED_KEYWORDS = true) by (vm_compute; reflexivity).
  rewrite forallb_forall in Hall.
  rewrite includes_existsb in H; apply existsb_exists in H as [x [Hin Hx]].
  apply String.eqb_eq in Hx; subst x.
  specialize (Hall _ Hin); apply String.eqb_eq in Hall.
  rewrite Hall, includes_existsb, existsb_exists.
  exists w; now rewrite String.eqb_refl.
Qed.

(** C7: [validatedFieldName] is the sanitizer of the specification: empty
    on the empty name, otherwise the name without the characters outside
    [A-Za-z0-9_-], quoted in backticks exactly when the lowercase form of
    the name as given is one of the reserved words; "table" comes out as
    "`table`" and "my_col" as "my_col". *)
Theorem validatedFieldName_sanitize :
  (forall name, validatedFieldName name = sanitize name)
  /\ validatedFieldName "" = ""
  /\ validatedFieldName "table" = "`table`"
  /\ validatedFieldName "my_col" = "my_col".
Proof.
  split; [|repeat split].
  intros [|c r]; [reflexivity|].
  unfold validatedFieldName, sanitize, is_reserved, strip_illegal.
  change (String.length (String c r) =? 0)%nat with false; cbv iota.
  rewrite includes_existsb.
  now rewrite (keep_filter legal_char _ (String c r) legal_char_class).
Qed.

(** C8: on a name that is not reserved and has only legal characters,
    sanitizing twice is sanitizing once. *)
Theorem validatedFieldName_idempotent (n : string) :
  is_reserved n = false ->
  Str.forallb legal_char n = true ->
  validatedFieldName (validatedFieldName n) = validatedFieldName n.
Proof.
  intros Hres Hlegal.
  assert (Hn : validatedFieldName n = n).
  { rewrite validatedFieldName_plain by assumption. now apply keep_all. }
  now rewrite !Hn.
Qed.

Lemma validatedFieldName_idempotent_witness :
  validatedFieldName (validatedFieldName "my_col")
  = validatedFieldName "my_col".
Proof.
  apply (validatedFieldName_idempotent "my_col"); vm_compute; reflexivity.
Defined.

(** C10: the reserved-word test reads the name as given.  A non-empty
    name that is not reserved, but whose legal characters spell a reserved
    word, comes out as that bare word, without backticks; sanitizing the
    result again quotes it, so the second pass differs from the first. *)
Theorem validatedFieldName_reserved_after_strip (name : string) :
  name <> "" ->
  is_reserved name = false ->
  is_reserved (strip_illegal name) = true ->
  validatedFieldName name = strip_illegal name
  /\ Str.forallb legal_char (validatedFieldName name) = true
  /\ validatedFieldName (validatedFieldName name)
     = "`" ++ strip_illegal name ++ "`"
  /\ validatedFieldName (validatedFieldName name) <> validatedFieldName name.
Proof.
  intros _ Hname Hstripped.
  pose proof (validatedFieldName_plain name Hname) as H1.
  assert (H2 : validatedFieldName (validatedFieldName name)
               = "`" ++ strip_illegal name ++ "`").
  { rewrite H1, validatedFieldName_quoted by assumption.
    now rewrite strip_illegal_idem. }
  repeat split.
  - exact H1.
  - rewrite H1; apply keep_kept.
  - exact H2.
  - rewrite H2, H1; apply quoted_differs.
Qed.

Lemma validatedFieldName_reserved_after_strip_witness :
  validatedFieldName "ta ble" = "table"
  /\ validatedFieldName (validatedFieldName "ta ble") = "`table`".
Proof.
  destruct (validatedFieldName_reserved_after_strip "ta ble")
    as (H1 & _ & H2 & _).
  - discriminate.
  - vm_compute; reflexivity.
  - vm_compute; reflexivity.
  - split; [exact H1 | exact H2].
Defined.

End Sanitizer.

(** * Properties of the type mapper *)

Module Mapper.

#[local] Arguments String.eqb : simpl never.

(** ** Property reads *)

Lemma find_present {A} (f : json -> A) (a : A) k l v :
  lookup k l = Some v -> find f a k l = f v.
Proof.
  induction l as [|[k' v'] r IH]; simpl; [discriminate|].
  destruct (k =? k'); [now intros [= ->] | exact IH].
Qed.

Lemma find_absent {A} (f : json -> A) (a : A) k l :
  lookup k l = None -> find f a k l = a.
Proof.
  induction l as [|[k' v'] r IH]; simpl; [reflexivity|].
  destruct (k =? k'); [discriminate | exact IH].
Qed.

(** ** The call without mapping *)

Lemma sequence_fields (l : list (string * json)) :
  sequence (map (grouping_column None) l) = columns parseUnmapped " " l.
Proof.
  induction l as [|[k v] r IH]; simpl; [reflexivity | now rewrite IH].
Qed.

Lemma sequence_items (l : list json) : forall i,
  sequence (map (grouping_column None) (elements i l))
  = columns_of_items parseUnmapped " " i l.
Proof.
  induction l as [|v r IH]; intros i; simpl; [reflexivity | now rewrite IH].
Qed.

Lemma grouping_None (x : json) :
  x <> JNull -> grouping None x = for_in parseUnmapped " " x.
Proof.
  unfold grouping; destruct x as [| b | z | s | items | fields]; intros Hx.
  - contradiction.
  - reflexivity.
  - reflexivity.
  - destruct s; reflexivity.
  - simpl entries; now rewrite sequence_items.
  - simpl entries; now rewrite sequence_fields.
Qed.

(** The two-level definition is one function: with [mapping] undefined,
    [parseSqlSchemaFromObject] is [parseUnmapped]. *)
Lemma parse_None (data : json) :
  parseSqlSchemaFromObject data None = parseUnmapped data.
Proof.
  induction data as [| b | z | s | items _ | fields IH] using json_ind.
  1: reflexivity.
  1-4: simpl; apply grouping_None; discriminate.
  cbn [parseSqlSchemaFromObject parseUnmapped].
  destruct (string_type fields); [reflexivity|].
  rewrite grouping_None by discriminate.
  generalize (for_in parseUnmapped " " (JObj fields)) as a.
  induction IH as [|[k v] r Hv _ IHr]; intros a; cbn [find]; [reflexivity|].
  destruct ("properties" =? k); [exact Hv | apply IHr].
Qed.

(** A node with a string "type" is compiled by [typed_node], whatever
    the mapping. *)
Lemma parse_typed fields mapping t :
  string_type fields = Some t ->
  parseSqlSchemaFromObject (JObj fields) mapping
  = typed_node parseUnmapped t fields.
Proof. intros H; simpl; now rewrite H. Qed.

Lemma parse_grouping fields mapping :
  implicit_grouping fields ->
  parseSqlSchemaFromObject (JObj fields) mapping
  = grouping mapping (JObj fields).
Proof.
  intros [Ht Hp]; simpl; rewrite Ht; now apply find_absent.
Qed.

(** ** The unwrapping of the loader *)

Lemma rev_acc_app (s t acc : string) :
  Str.rev_acc (s ++ t) acc = Str.rev_acc t (Str.rev_acc s acc).
Proof.
  revert acc; induction s as [|c r IH]; intros acc; simpl;
    [reflexivity | apply IH].
Qed.

Lemma endsWith_app (s : string) : Str.endsWith (s ++ ">") ">" = true.
Proof.
  unfold Str.endsWith, Str.rev; rewrite rev_acc_app; reflexivity.
Qed.

Lemma substring_app (s t : string) :
  String.substring 0 (String.length s) (s ++ t) = s.
Proof.
  induction s as [|c r IH]; simpl; [now destruct t | now rewrite IH].
Qed.

Lemma unwrap_struct (cols : list string) :
  Str.startsWith (struct_of cols) "struct<"
  && Str.endsWith (struct_of cols) ">" = true
  /\ Str.substring 7 (String.length (struct_of cols) - 1) (struct_of cols)
     = Str.join ", " cols.
Proof.
  unfold struct_of; set (j := Str.join ", " cols); split.
  - apply andb_true_iff; split; [reflexivity|].
    exact (endsWith_app ("struct<" ++ j)).
  - unfold Str.substring; simpl String.length.
    rewrite Sanitizer.length_app; simpl String.length.
    replace (S (S (S (S (S (S (S (String.length j + 1))))))) - 1 - 7)
      with (String.length j) by lia.
    simpl; apply substring_app.
Qed.

Lemma readSqlSchemaFromJson_struct data mapping cols :
  parseSqlSchemaFromObject data mapping = Return (struct_of cols) ->
  readSqlSchemaFromJson data mapping = Return (Str.join ", " cols).
Proof.
  intros H; unfold readSqlSchemaFromJson; rewrite H; cbn [bind].
  destruct (unwrap_struct cols) as [-> ->]; reflexivity.
Qed.

Lemma readSqlSchemaFromJson_other data mapping s :
  parseSqlSchemaFromObject data mapping = Return s ->
  Str.startsWith s "struct<" = false ->
  readSqlSchemaFromJson data mapping = Return s.
Proof.
  intros H Hs; unfold readSqlSchemaFromJson; rewrite H; cbn [bind].
  now rewrite Hs.
Qed.

Lemma readSqlSchemaFromJson_throw data mapping e :
  parseSqlSchemaFromObject data mapping = Throw e ->
  readSqlSchemaFromJson data mapping = Throw e.
Proof. intros H; unfold readSqlSchemaFromJson; now rewrite H. Qed.

(** C4: the document with the fields id, a string, and ts, a timestamp,
    in that order, is mapped to "struct<id string, ts bigint>" and
    compiled to exactly "id string, ts bigint"; in general, a mapper
    result of the form struct<...> is compiled to the columns inside,
    joined in their order. *)
Theorem readSqlSchemaFromJson_unwraps :
  parseSqlSchemaFromObject Example.id_ts None
  = Return "struct<id string, ts bigint>"
  /\ readSqlSchemaFromJson Example.id_ts None = Return "id string, ts bigint"
  /\ (forall data mapping cols,
        parseSqlSchemaFromObject data mapping = Return (struct_of cols) ->
        readSqlSchemaFromJson data mapping = Return (Str.join ", " cols)).
Proof.
  split; [reflexivity | split; [reflexivity|]].
  exact readSqlSchemaFromJson_struct.
Qed.

Lemma readSqlSchemaFromJson_unwraps_witness :
  readSqlSchemaFromJson Example.id_ts None
  = Return (Str.join ", " ["id string"; "ts bigint"]).
Proof.
  apply (proj2 (proj2 readSqlSchemaFromJson_unwraps)); reflexivity.
Defined.

(** ** Typed nodes at the root *)

Ltac type_cases H :=
  unfold typed_node in H;
  repeat match type of H with
         | context [if ?t =? ?k then _ else _] =>
             destruct (String.eqb_spec t k)
         end.

Ltac bind_cases H :=
  repeat match type of H with
         | bind ?m _ = _ => destruct m; cbn [bind] in H; try discriminate H
         end.

Lemma typed_not_struct t fields s :
  t <> "object" ->
  typed_node parseUnmapped t fields = Return s ->
  Str.startsWith s "struct<" = false.
Proof.
  intros Hobj H; type_cases H; try contradiction;
    try (injection H as <-; reflexivity); try discriminate H.
  - bind_cases H; injection H as <-; reflexivity.
  - destruct (lookup "properties" fields) as [[]|]; try discriminate H;
      bind_cases H; injection H as <-; reflexivity.
  - bind_cases H; injection H as <-; reflexivity.
Qed.

Lemma typed_primitive t sql fields :
  In (t, sql) PRIMITIVE_TYPES -> typed_node parseUnmapped t fields = Return sql.
Proof.
  unfold PRIMITIVE_TYPES; intros H.
  repeat (destruct H as [[= <- <-] | H]; [reflexivity|]).
  destruct H.
Qed.

(** C3, as the code has it: there is no check of the root's kind.  For a
    root node with a type keyword other than "object" (a bare primitive,
    an array, a map, a decimal), the loader returns the string the mapper
    returns for it, unchanged; for a primitive keyword this is its SQL
    type. *)
Theorem readSqlSchemaFromJson_typed_root fields mapping t :
  string_type fields = Some t ->
  t <> "object" ->
  (forall s, parseSqlSchemaFromObject (JObj fields) mapping = Return s ->
             readSqlSchemaFromJson (JObj fields) mapping = Return s)
  /\ (forall sql, In (t, sql) PRIMITIVE_TYPES ->
                  readSqlSchemaFromJson (JObj fields) mapping = Return sql).
Proof.
  intros Ht Hobj.
  assert (Hs : forall s,
             parseSqlSchemaFromObject (JObj fields) mapping = Return s ->
             readSqlSchemaFromJson (JObj fields) mapping = Return s).
  { intros s H; apply readSqlSchemaFromJson_other; [exact H|].
    rewrite (parse_typed _ _ _ Ht) in H.
    now apply (typed_not_struct t fields). }
  split; [exact Hs|].
  intros sql Hin; apply Hs.
  rewrite (parse_typed _ _ _ Ht); now apply typed_primitive.
Qed.

Lemma readSqlSchemaFromJson_typed_root_witness :
  readSqlSchemaFromJson (Example.ty "timestamp") None = Return "bigint".
Proof.
  apply (proj2 (readSqlSchemaFromJson_typed_root
                  [("type", JStr "timestamp")] None "timestamp"
                  eq_refl ltac:(discriminate))).
  simpl; tauto.
Defined.

(** C3 as stated fails: a root that is a bare primitive, an array or a
    map is compiled to a string, not rejected. *)
Lemma bare_root_is_compiled :
  readSqlSchemaFromJson (Example.ty "string") None = Return "string"
  /\ readSqlSchemaFromJson
       (JObj [("type", JStr "array"); ("items", Example.ty "integer")]) None
     = Return "array<int>"
  /\ readSqlSchemaFromJson Example.json_map None = Return "map<string, int>".
Proof. repeat split. Qed.

(** ** Fields compiled one by one *)

Lemma sequence_app (l1 l2 : list (outcome string)) :
  sequence (l1 ++ l2)
  = (a <- sequence l1 ;; b <- sequence l2 ;; Return (a ++ b)%list).
Proof.
  induction l1 as [|m r IH]; simpl.
  - destruct (sequence l2); reflexivity.
  - destruct m; simpl; [|reflexivity|reflexivity].
    rewrite IH; destruct (sequence r); simpl; [|reflexivity|reflexivity].
    destruct (sequence l2); reflexivity.
Qed.

Lemma original_column key value t :
  parseSqlSchemaFromObject value None = Return t ->
  column parseUnmapped " " key value = Return (field_text " " key t).
Proof. rewrite parse_None; unfold column; now intros ->. Qed.

Lemma columns_compiled sep fields types :
  compiled fields types ->
  columns parseUnmapped sep fields = Return (rendered sep fields types).
Proof.
  induction 1 as [|[k v] t r ts Hv _ IH]; [reflexivity|].
  cbn [columns]; unfold column at 1.
  rewrite <- parse_None; cbn [snd] in Hv; rewrite Hv, IH; reflexivity.
Qed.

Lemma sequence_compiled fields types :
  compiled fields types ->
  sequence (map (grouping_column None) fields)
  = Return (rendered " " fields types).
Proof. rewrite sequence_fields; apply columns_compiled. Qed.

(** ** Errors *)

Lemma typed_null fields :
  typed_node parseUnmapped "null" fields = Throw (UnsupportedType "null").
Proof. reflexivity. Qed.

Lemma typed_unknown t fields :
  t <> "null" -> ~ In t RECOGNIZED_TYPES ->
  typed_node parseUnmapped t fields = Throw (UnknownType t).
Proof.
  intros Hnull Hrec; unfold typed_node.
  repeat match goal with
         | |- context [if ?t =? ?k then _ else _] =>
             destruct (String.eqb_spec t k) as [->|_]
         end;
    try reflexivity; try contradiction;
    exfalso; apply Hrec; simpl; tauto.
Qed.

Lemma first_failure fields pre key value post types e :
  implicit_grouping fields ->
  fields = (pre ++ (key, value) :: post)%list ->
  compiled pre types ->
  parseSqlSchemaFromObject value None = Throw e ->
  parseSqlSchemaFromObject (JObj fields) None = Throw e.
Proof.
  intros Hg -> Hpre Hv.
  rewrite (parse_grouping _ _ Hg); unfold grouping; cbn [entries].
  rewrite map_app, sequence_app, (sequence_compiled _ _ Hpre).
  cbn [bind map sequence grouping_column]; unfold column.
  rewrite <- parse_None, Hv; reflexivity.
Qed.

(** C6: a node whose type keyword is "null" makes the mapper throw the
    unsupported-type error, and one whose keyword is outside the
    recognized set makes it throw the unknown-type error, whatever the
    mapping.  The error is the whole outcome: it passes through the
    loader, and in a grouping the first child that throws, after children
    that compiled, ends the pass with its error.  The documents
    {"x": {"type": "null"}} and {"x": {"type": "bogus"}} throw the
    former and the latter. *)
Theorem type_errors :
  (forall fields mapping,
      string_type fields = Some "null" ->
      parseSqlSchemaFromObject (JObj fields) mapping
      = Throw (UnsupportedType "null"))
  /\ (forall fields mapping t,
         string_type fields = Some t ->
         t <> "null" -> ~ In t RECOGNIZED_TYPES ->
         parseSqlSchemaFromObject (JObj fields) mapping
         = Throw (UnknownType t))
  /\ (forall data mapping e,
         parseSqlSchemaFromObject data mapping = Throw e ->
         readSqlSchemaFromJson data mapping = Throw e)
  /\ (forall fields pre key value post types e,
         implicit_grouping fields ->
         fields = (pre ++ (key, value) :: post)%list ->
         compiled pre types ->
         parseSqlSchemaFromObject value None = Throw e ->
         parseSqlSchemaFromObject (JObj fields) None = Throw e)
  /\ readSqlSchemaFromJson Example.x_null None
     = Throw (UnsupportedType "null")
  /\ readSqlSchemaFromJson Example.x_bogus None
     = Throw (UnknownType "bogus").
Proof.
  split; [|split; [|split; [|split; [|split]]]].
  - intros fields mapping Ht.
    rewrite (parse_typed _ _ _ Ht); apply typed_null.
  - intros fields mapping t Ht Hnull Hrec.
    rewrite (parse_typed _ _ _ Ht); now apply typed_unknown.
  - exact readSqlSchemaFromJson_throw.
  - exact first_failure.
  - reflexivity.
  - reflexivity.
Qed.

Lemma type_errors_witness :
  parseSqlSchemaFromObject (Example.ty "null") (Some Example.json_str_to_json_map)
  = Throw (UnsupportedType "null")
  /\ parseSqlSchemaFromObject
       (JObj [("type", JStr "varchar"); ("items", Example.ty "string")]) None
     = Throw (UnknownType "varchar")
  /\ readSqlSchemaFromJson (Example.ty "null") None
     = Throw (UnsupportedType "null")
  /\ parseSqlSchemaFromObject
       (JObj [("a", Example.ty "string"); ("b", Example.ty "bogus");
              ("c", Example.ty "null")]) None
     = Throw (UnknownType "bogus").
Proof.
  destruct type_errors as (Hnull & Hunknown & Hload & Hfirst & _).
  split; [|split; [|split]].
  - apply Hnull; reflexivity.
  - apply Hunknown; [reflexivity | discriminate |].
    simpl; intuition discriminate.
  - apply Hload; reflexivity.
  - apply (Hfirst _ [("a", Example.ty "string")] "b" (Example.ty "bogus")
             [("c", Example.ty "null")] ["string"]).
    + split; reflexivity.
    + reflexivity.
    + repeat constructor.
    + reflexivity.
Defined.

(** ** Decimals *)

Lemma digits_of_uint (d : Decimal.uint) :
  Str.forallb digit (NilEmpty.string_of_uint d) = true.
Proof. induction d; simpl; auto. Qed.

Lemma uint_text_nonempty (d : Decimal.uint) :
  (String.length (NilZero.string_of_uint d) =? 0)%nat = false.
Proof. destruct d; reflexivity. Qed.

Lemma uint_text_digits (d : Decimal.uint) :
  Str.forallb digit (NilZero.string_of_uint d) = true.
Proof.
  destruct d; try reflexivity;
    unfold NilZero.string_of_uint; apply digits_of_uint.
Qed.

Lemma uint_text_unsigned (d : Decimal.uint) :
  integer_numeral (NilZero.string_of_uint d) = true.
Proof.
  pose proof (uint_text_digits d) as H.
  pose proof (uint_text_nonempty d) as Hne.
  destruct (NilZero.string_of_uint d) as [|c r]; [discriminate Hne|].
  unfold integer_numeral.
  destruct (Ascii.eqb_spec c "-") as [->|_]; [discriminate H | exact H].
Qed.

(** The text of an integer is a plain numeral, and reads back as the
    integer. *)
Lemma Z_text_numeral (z : Z) : integer_numeral (Z_text z) = true.
Proof.
  unfold Z_text; destruct (Z.to_int z) as [d|d]; cbn [NilZero.string_of_int].
  - apply uint_text_unsigned.
  - unfold integer_numeral; cbn.
    now rewrite uint_text_nonempty, uint_text_digits.
Qed.

Lemma Z_text_reads_back (z : Z) : Z_of_text (Z_text z) = Some z.
Proof.
  unfold Z_of_text, Z_text; rewrite NilZero.isi.
  - cbn [option_map]; now rewrite DecimalZ.of_to.
  - destruct z; cbn; try discriminate.
    intros [= H]; now apply Unsigned.to_uint_nonnil in H.
  - destruct z; cbn; try discriminate.
    intros [= H]; now apply Unsigned.to_uint_nonnil in H.
Qed.

Lemma number_text_integer (x : number) (z : Z) :
  integer_value x = Some z -> safe_integer z = true ->
  NumberText (Some (JNum x)) = Return (Z_text z).
Proof.
  intros Hx Hz; cbn [NumberText]; unfold number_text; now rewrite Hx, Hz.
Qed.

(** The text of a decimal node is made of the two texts [Number] gives. *)
Lemma decimal_node fields props mapping tp ts :
  string_type fields = Some "decimal" ->
  lookup "properties" fields = Some (JObj props) ->
  NumberText (lookup "precision" props) = Return tp ->
  NumberText (lookup "scale" props) = Return ts ->
  parseSqlSchemaFromObject (JObj fields) mapping
  = Return ("decimal(" ++ tp ++ "," ++ ts ++ ")").
Proof.
  intros Ht Hprops Hp Hs.
  rewrite (parse_typed _ _ _ Ht).
  unfold typed_node; cbn -[lookup get NumberText].
  rewrite Hprops; cbn [get]; rewrite Hp, Hs; reflexivity.
Qed.

(** No integer numeral goes up to the comma of "decimal(5.5,2)". *)
Lemma numeral_before_comma (z : Z) (rest : string) :
  Z_text z ++ "," ++ rest <> "5.5,2)".
Proof.
  pose proof (Z_text_numeral z) as Hn.
  destruct (Z_text z) as [|c [|c' r]]; cbn [append]; intros [= Hc Hc'];
    try discriminate.
  subst c c'; discriminate Hn.
Qed.




(** ** The two renderings of a struct *)

Lemma explicit_object_text fields props types mapping :
  explicit_object fields props ->
  compiled props types ->
  parseSqlSchemaFromObject (JObj fields) mapping
  = Return (struct_of (rendered ": " props types)).
Proof.
  intros [Ht Hp] Hc; rewrite (parse_typed _ _ _ Ht).
  unfold typed_node; cbn -[find for_in].
  rewrite (find_present _ _ _ _ _ Hp); cbn [for_in].
  now rewrite (columns_compiled _ _ _ Hc).
Qed.

Lemma implicit_grouping_text fields types :
  implicit_grouping fields ->
  compiled fields types ->
  parseSqlSchemaFromObject (JObj fields) None
  = Return (struct_of (rendered " " fields types)).
Proof.
  intros Hg Hc; rewrite (parse_grouping _ _ Hg); unfold grouping.
  cbn [entries]; now rewrite (sequence_compiled _ _ Hc).
Qed.

Lemma properties_wrapper fields p mapping :
  string_type fields = None ->
  lookup "properties" fields = Some p ->
  parseSqlSchemaFromObject (JObj fields) mapping
  = parseSqlSchemaFromObject p mapping.
Proof.
  intros Ht Hp; cbn [parseSqlSchemaFromObject]; rewrite Ht.
  now rewrite (find_present _ _ _ _ _ Hp).
Qed.

(** C5: an explicit object node (type "object" with properties) is
    rendered as struct< >, around its fields in the form "name: type"
    joined by ", "; an implicit grouping node (no type keyword, named
    children, given bare or under "properties") is rendered the same way
    but with its fields in the form "name type".  The document with the
    object "other" of col1, an integer, and col2, a float, compiles to
    "other struct<col1: int, col2: float>". *)
Theorem struct_renderings :
  (forall fields props types mapping,
      explicit_object fields props ->
      compiled props types ->
      parseSqlSchemaFromObject (JObj fields) mapping
      = Return ("struct<" ++ Str.join ", " (rendered ": " props types) ++ ">"))
  /\ (forall fields types,
         implicit_grouping fields ->
         compiled fields types ->
         parseSqlSchemaFromObject (JObj fields) None
         = Return ("struct<" ++ Str.join ", " (rendered " " fields types) ++ ">"))
  /\ (forall fields p mapping,
         string_type fields = None ->
         lookup "properties" fields = Some p ->
         parseSqlSchemaFromObject (JObj fields) mapping
         = parseSqlSchemaFromObject p mapping)
  /\ readSqlSchemaFromJson Example.other None
     = Return "other struct<col1: int, col2: float>".
Proof.
  split; [exact explicit_object_text|].
  split; [exact implicit_grouping_text|].
  split; [exact properties_wrapper | reflexivity].
Qed.

Lemma struct_renderings_witness :
  parseSqlSchemaFromObject
    (JObj [("type", JStr "object");
           ("properties", JObj [("col1", Example.ty "integer");
                                ("table", Example.ty "float")])]) None
  = Return "struct<col1: int, `table`: float>"
  /\ parseSqlSchemaFromObject
       (JObj [("col1", Example.ty "integer"); ("table", Example.ty "float")])
       None
     = Return "struct<col1 int, `table` float>"
  /\ parseSqlSchemaFromObject
       (JObj [("properties", JObj [("col1", Example.ty "integer")])]) None
     = Return "struct<col1 int>".
Proof.
  destruct struct_renderings as (Hexplicit & Himplicit & Hwrapper & _).
  split; [|split].
  - apply (Hexplicit _ [("col1", Example.ty "integer");
                        ("table", Example.ty "float")] ["int"; "float"]).
    + split; reflexivity.
    + repeat constructor.
  - apply (Himplicit [("col1", Example.ty "integer");
                      ("table", Example.ty "float")] ["int"; "float"]).
    + split; reflexivity.
    + repeat constructor.
  - rewrite (Hwrapper _ (JObj [("col1", Example.ty "integer")]));
      reflexivity.
Defined.

(** ** The overlay *)

Lemma key_in_own key m e : lookup key m = Some e -> key_in key m = true.
Proof. unfold key_in; now intros ->. Qed.

Lemma resolved_column m kv col :
  resolved m kv col -> grouping_column (Some m) kv = Return col.
Proof.
  intros [key value newKey newValue t Hm Ht | key value t Hm Ht];
    cbn [grouping_column].
  - rewrite (key_in_own _ _ _ Hm); unfold mapped_column; rewrite Hm.
    cbn [entries]; now apply original_column.
  - rewrite Hm; now apply original_column.
Qed.

Lemma sequence_resolved m fields cols :
  Forall2 (resolved m) fields cols ->
  sequence (map (grouping_column (Some m)) fields) = Return cols.
Proof.
  induction 1 as [|kv col r cs Hkv _ IH]; [reflexivity|].
  cbn [map sequence]; now rewrite (resolved_column _ _ _ Hkv), IH.
Qed.

(** C2: in a grouping compiled with an overlay, a direct child whose key
    is in the overlay gives the column of the overlay entry's sole key,
    sanitized, and of its sole value, compiled as any node; the other
    children give their own columns; all subtrees are compiled with no
    overlay, so the same key further down is left alone.  The document
    with the string json_str and the overlay that replaces json_str by
    the map json_map compile to "json_map map<string, int>". *)
Theorem overlay_substitution :
  (forall fields m cols,
      implicit_grouping fields ->
      Forall2 (resolved m) fields cols ->
      parseSqlSchemaFromObject (JObj fields) (Some m)
      = Return ("struct<" ++ Str.join ", " cols ++ ">"))
  /\ readSqlSchemaFromJson Example.json_str (Some Example.json_str_to_json_map)
     = Return "json_map map<string, int>"
  /\ readSqlSchemaFromJson Example.json_str_twice
       (Some Example.json_str_to_json_map)
     = Return "json_map map<string, int>, nested struct<json_str string>".
Proof.
  split; [|split; reflexivity].
  intros fields m cols Hg Hcols.
  rewrite (parse_grouping _ _ Hg); unfold grouping; cbn [entries].
  now rewrite (sequence_resolved _ _ _ Hcols).
Qed.

Lemma overlay_substitution_witness :
  parseSqlSchemaFromObject Example.json_str_twice
    (Some Example.json_str_to_json_map)
  = Return "struct<json_map map<string, int>, nested struct<json_str string>>".
Proof.
  apply (proj1 overlay_substitution
           [("json_str", Example.ty "string");
            ("nested", JObj [("json_str", Example.ty "string")])]
           Example.json_str_to_json_map
           [field_text " " "json_map" "map<string, int>";
            field_text " " "nested" "struct<json_str string>"]).
  - split; reflexivity.
  - constructor; [|constructor; [|constructor]].
    + apply resolved_replaced with (newValue := Example.json_map);
        reflexivity.
    + apply resolved_original; reflexivity.
Defined.

(** ** The overlay reaches the root grouping only *)

Lemma grouping_agree m1 m2 x :
  agree m1 m2 (entries x) -> grouping m1 x = grouping m2 x.
Proof.
  intros H; unfold grouping; f_equal; f_equal.
  apply map_ext_in; exact H.
Qed.

Lemma find_agree m1 m2 d a1 a2 l :
  Forall (fun kv => agree m1 m2 (root_entries (snd kv)) ->
                    parseSqlSchemaFromObject (snd kv) m1
                    = parseSqlSchemaFromObject (snd kv) m2) l ->
  (agree m1 m2 d -> a1 = a2) ->
  agree m1 m2 (find root_entries d "properties" l) ->
  find (fun p => parseSqlSchemaFromObject p m1) a1 "properties" l
  = find (fun p => parseSqlSchemaFromObject p m2) a2 "properties" l.
Proof.
  intros IH Ha; induction IH as [|[k v] r Hv _ IHr]; cbn [find]; intros H.
  - now apply Ha.
  - destruct ("properties" =? k); [now apply Hv | now apply IHr].
Qed.

Lemma parse_agree m1 m2 data :
  agree m1 m2 (root_entries data) ->
  parseSqlSchemaFromObject data m1 = parseSqlSchemaFromObject data m2.
Proof.
  induction data as [| b | z | s | items _ | fields IH] using json_ind;
    intros H.
  1: reflexivity.
  1-4: now apply grouping_agree.
  cbn [parseSqlSchemaFromObject root_entries] in *.
  destruct (string_type fields); [reflexivity|].
  apply (find_agree m1 m2 fields); [exact IH | | exact H].
  exact (grouping_agree m1 m2 (JObj fields)).
Qed.

Lemma column_same_entry m1 m2 key value :
  lookup key m1 = lookup key m2 ->
  grouping_column (Some m1) (key, value)
  = grouping_column (Some m2) (key, value).
Proof.
  intros H; cbn [grouping_column]; unfold key_in, mapped_column.
  now rewrite H.
Qed.

Lemma column_no_entry m key value :
  key_in key m = false ->
  grouping_column (Some m) (key, value) = grouping_column None (key, value).
Proof. intros H; cbn [grouping_column]; now rewrite H. Qed.

(** C1, as the code has it: overlay keys are matched against the direct
    children of the root grouping only.  The outcome depends on the
    overlay through its entries for the keys of those children and
    through nothing else: two overlays with the same entries there give
    the same outcome, and an overlay with no key there gives the outcome
    of no overlay, whatever keys occur further down.  Under a "properties"
    wrapper, the root child json_str is replaced and the json_str one
    level down is not. *)
Theorem overlay_matches_root_keys_only data m :
  (forall m',
      (forall key, In key (map fst (root_entries data)) ->
                   lookup key m = lookup key m') ->
      parseSqlSchemaFromObject data (Some m)
      = parseSqlSchemaFromObject data (Some m')
      /\ readSqlSchemaFromJson data (Some m)
         = readSqlSchemaFromJson data (Some m'))
  /\ ((forall key, In key (map fst (root_entries data)) ->
                   key_in key m = false) ->
      parseSqlSchemaFromObject data (Some m)
      = parseSqlSchemaFromObject data None
      /\ readSqlSchemaFromJson data (Some m)
         = readSqlSchemaFromJson data None)
  /\ readSqlSchemaFromJson (JObj [("properties", Example.json_str_twice)])
       (Some Example.json_str_to_json_map)
     = Return "json_map map<string, int>, nested struct<json_str string>".
Proof.
  split; [|split; [|reflexivity]].
  - intros m' H.
    assert (E : parseSqlSchemaFromObject data (Some m)
                = parseSqlSchemaFromObject data (Some m')).
    { apply parse_agree; intros [k v] Hin; apply column_same_entry, H.
      now apply (in_map fst) in Hin. }
    split; [exact E | unfold readSqlSchemaFromJson; now rewrite E].
  - intros H.
    assert (E : parseSqlSchemaFromObject data (Some m)
                = parseSqlSchemaFromObject data None).
    { apply parse_agree; intros [k v] Hin; apply column_no_entry, H.
      now apply (in_map fst) in Hin. }
    split; [exact E | unfold readSqlSchemaFromJson; now rewrite E].
Qed.

Lemma overlay_matches_root_keys_only_witness :
  readSqlSchemaFromJson Example.json_str_nested
    (Some Example.json_str_to_json_map)
  = readSqlSchemaFromJson Example.json_str_nested None
  /\ readSqlSchemaFromJson Example.json_str_twice
       (Some Example.json_str_to_json_map)
     = readSqlSchemaFromJson Example.json_str_twice
         (Some (("col1", JNull) :: Example.json_str_to_json_map)).
Proof.
  split.
  - apply (proj1 (proj2 (overlay_matches_root_keys_only
                    Example.json_str_nested Example.json_str_to_json_map))).
    intros key [<- | []]; reflexivity.
  - apply (proj1 (overlay_matches_root_keys_only
                    Example.json_str_twice Example.json_str_to_json_map)).
    intros key [<- | [<- | []]]; reflexivity.
Defined.

(** C1 as stated fails: with the overlay for json_str, the child
    json_str of a nested grouping, or of a nested object, is compiled as
    it stands. *)
Lemma nested_key_is_not_substituted :
  readSqlSchemaFromJson Example.json_str_nested
    (Some Example.json_str_to_json_map)
  = Return "nested struct<json_str string>"
  /\ readSqlSchemaFromJson Example.json_str_nested
       (Some Example.json_str_to_json_map)
     <> Return "nested struct<json_map map<string, int>>"
  /\ readSqlSchemaFromJson
       (JObj [("nested", JObj [("type", JStr "object");
                               ("properties", Example.json_str)])])
       (Some Example.json_str_to_json_map)
     = Return "nested struct<json_str: string>".
Proof. repeat split; discriminate. Qed.

End Mapper.

(** * Further properties of the sanitizer *)

Module SanitizerEdges.

Lemma keep_app (p : ascii -> bool) (s t : string) :
  Str.keep p (s ++ t) = Str.keep p s ++ Str.keep p t.
Proof.
  induction s as [|c r IH]; simpl; [reflexivity|].
  destruct (p c); simpl; now rewrite IH.
Qed.

Lemma forallb_app (p : ascii -> bool) (s t : string) :
  Str.forallb p (s ++ t) = Str.forallb p s && Str.forallb p t.
Proof.
  induction s as [|c r IH]; simpl; [reflexivity|].
  now rewrite IH, andb_assoc.
Qed.

Lemma forallb_weaken (p q : ascii -> bool) (s : string) :
  (forall c, p c = true -> q c = true) ->
  Str.forallb p s = true -> Str.forallb q s = true.
Proof.
  intros Hpq; induction s as [|c r IH]; simpl; [reflexivity|].
  intros H; apply andb_true_iff in H as [Hc Hr].
  now rewrite (Hpq _ Hc), IH.
Qed.

Lemma keep_length (p : ascii -> bool) (s : string) :
  String.length (Str.keep p s) <= String.length s.
Proof.
  induction s as [|c r IH]; simpl; [lia|].
  destruct (p c); simpl; lia.
Qed.

(** On the code units below 256, lowercasing never turns an illegal
    character into a legal one. *)
Lemma legal_before_lowercase (c : ascii) :
  legal_char (Str.lower_char c) = true -> legal_char c = true.
Proof.
  destruct c as [[] [] [] [] [] [] [] []]; vm_compute; intros H;
    first [reflexivity | discriminate H].
Qed.

Lemma legal_toLowerCase (s : string) :
  Str.forallb legal_char (Str.toLowerCase s) = true ->
  Str.forallb legal_char s = true.
Proof.
  induction s as [|c r IH]; simpl; [reflexivity|].
  intros H; apply andb_true_iff in H as [Hc Hr].
  now rewrite (legal_before_lowercase _ Hc), IH.
Qed.

(** Among the strings of code units below 256, a reserved name, in
    whatever letter case, has legal characters only. *)
Lemma reserved_is_legal (name : string) :
  is_reserved name = true -> Str.forallb legal_char name = true.
Proof.
  unfold is_reserved; intros H; apply legal_toLowerCase.
  assert (Hall : forallb (Str.forallb legal_char) RESERVED_KEYWORDS = true)
    by (vm_compute; reflexivity).
  rewrite forallb_forall in Hall; apply Hall.
  rewrite Sanitizer.includes_existsb in H.
  apply existsb_exists in H as [w [Hin Hw]].
  apply String.eqb_eq in Hw; now subst w.
Qed.

Lemma backtick_not_reserved (s : string) :
  is_reserved (String "`" s) = false.
Proof. reflexivity. Qed.

(** X1: on a name written in legal characters only, the sanitizer changes
    nothing but the quoting: the name comes back whole and in its own
    letter case, in backticks exactly when its lowercase form is a reserved
    word. *)
Theorem validatedFieldName_reserved_verbatim (name : string) :
  Str.forallb legal_char name = true ->
  validatedFieldName name
  = if is_reserved name then "`" ++ name ++ "`" else name.
Proof.
  intros Hl; destruct (is_reserved name) eqn:H.
  - rewrite (Sanitizer.validatedFieldName_quoted _ H).
    unfold strip_illegal; now rewrite (Sanitizer.keep_all _ _ Hl).
  - rewrite (Sanitizer.validatedFieldName_plain _ H).
    now apply Sanitizer.keep_all.
Qed.

Lemma validatedFieldName_reserved_verbatim_witness :
  validatedFieldName "Select" = "`Select`".
Proof.
  apply (validatedFieldName_reserved_verbatim "Select"); reflexivity.
Defined.

(** X2: the output has only characters of [A-Za-z0-9_-] and backticks, and
    is at most two characters longer than the input. *)
Theorem validatedFieldName_alphabet (name : string) :
  Str.forallb (fun c => legal_char c || Ascii.eqb c "`")
    (validatedFieldName name) = true
  /\ String.length (validatedFieldName name) <= String.length name + 2.
Proof.
  assert (Hw : Str.forallb (fun c => legal_char c || Ascii.eqb c "`")
                 (strip_illegal name) = true).
  { apply (forallb_weaken legal_char); [|apply Sanitizer.keep_kept].
    now intros c ->. }
  pose proof (keep_length legal_char name) as Hlen.
  unfold validatedFieldName.
  destruct (String.length name =? 0)%nat; [split; simpl; [reflexivity|lia]|].
  destruct (is_reserved name); [|split; [exact Hw | unfold strip_illegal; lia]].
  split.
  - cbn [append Str.forallb]; rewrite forallb_app, Hw; reflexivity.
  - cbn [append String.length]; rewrite Sanitizer.length_app.
    unfold strip_illegal; simpl; lia.
Qed.

Lemma append_empty (s : string) : s ++ "" = s.
Proof. induction s as [|c r IH]; simpl; [reflexivity | now rewrite IH]. Qed.

Lemma strip_quoted (s : string) :
  strip_illegal (String "`" (s ++ "`")) = strip_illegal s.
Proof.
  unfold strip_illegal.
  change (String "`" (s ++ "`")) with ("`" ++ (s ++ "`")).
  rewrite !keep_app.
  change (Str.keep legal_char "`") with "".
  cbn [append]; apply append_empty.
Qed.

(** X3: for a reserved word written in legal characters, a second pass
    over the quoted word strips the backticks and returns the bare word; a
    third pass quotes it again.  The sanitizer is to be applied once. *)
Theorem validatedFieldName_requote (name : string) :
  Str.forallb legal_char name = true ->
  is_reserved name = true ->
  validatedFieldName (validatedFieldName name) = name
  /\ validatedFieldName (validatedFieldName (validatedFieldName name))
     = validatedFieldName name.
Proof.
  intros Hl H.
  assert (Hq : validatedFieldName name = "`" ++ name ++ "`").
  { rewrite (Sanitizer.validatedFieldName_quoted _ H).
    unfold strip_illegal; now rewrite (Sanitizer.keep_all _ _ Hl). }
  assert (H2 : validatedFieldName (validatedFieldName name) = name).
  { rewrite Hq; cbn [append].
    rewrite (Sanitizer.validatedFieldName_plain _ (backtick_not_reserved _)).
    rewrite (strip_quoted name).
    now apply Sanitizer.keep_all. }
  split; [exact H2 | now rewrite H2].
Qed.

Lemma validatedFieldName_requote_witness :
  validatedFieldName (validatedFieldName "table") = "table".
Proof.
  apply (proj1 (validatedFieldName_requote "table" eq_refl eq_refl)).
Defined.

(** X4: a name without any legal character is sanitized to the empty
    string. *)
Theorem validatedFieldName_all_illegal (name : string) :
  Str.forallb (fun c => negb (legal_char c)) name = true ->
  validatedFieldName name = "".
Proof.
  intros H.
  assert (Hs : strip_illegal name = "").
  { unfold strip_illegal; induction name as [|c r IH]; [reflexivity|].
    simpl in *; apply andb_true_iff in H as [Hc Hr].
    apply negb_true_iff in Hc; rewrite Hc; auto. }
  destruct (is_reserved name) eqn:Hr.
  - apply reserved_is_legal in Hr.
    destruct name as [|c r]; [reflexivity|].
    simpl in H, Hr.
    apply andb_true_iff in H as [Hc _]; apply andb_true_iff in Hr as [Hc' _].
    rewrite Hc' in Hc; discriminate Hc.
  - now rewrite (Sanitizer.validatedFieldName_plain _ Hr).
Qed.

Lemma validatedFieldName_all_illegal_witness :
  validatedFieldName "$ (%)" = "".
Proof.
  apply validatedFieldName_all_illegal; vm_compute; reflexivity.
Defined.

End SanitizerEdges.

(** * Further properties of the type mapper and of the loader *)

Module MapperEdges.

Lemma sequence_length l cs :
  sequence l = Return cs -> List.length cs = List.length l.
Proof.
  revert cs; induction l as [|m r IH]; intros cs; cbn [sequence].
  - now intros [= <-].
  - destruct m as [c| |]; cbn [bind]; try discriminate.
    destruct (sequence r) as [cs'| |]; cbn [bind]; try discriminate.
    intros [= <-]; cbn [List.length]; now rewrite (IH cs').
Qed.

Lemma grouping_returns mapping x s :
  grouping mapping x = Return s ->
  exists cols, s = struct_of cols
               /\ List.length cols = List.length (entries x).
Proof.
  unfold grouping; intros H.
  destruct (sequence _) as [cs| |] eqn:Hcs; try discriminate H.
  injection H as <-; exists cs; split; [reflexivity|].
  now rewrite (sequence_length _ _ Hcs), length_map.
Qed.

Lemma sequence_Forall2 {A} (f : A -> outcome string) l cs :
  sequence (map f l) = Return cs ->
  Forall2 (fun x c => f x = Return c) l cs.
Proof.
  revert cs; induction l as [|x r IH]; intros cs; cbn [map sequence].
  - intros [= <-]; constructor.
  - destruct (f x) as [c| |] eqn:Hx; cbn [bind]; try discriminate.
    destruct (sequence (map f r)) as [cs'| |]; cbn [bind]; try discriminate.
    intros [= <-]; constructor; [exact Hx | now apply IH].
Qed.

Lemma column_returns key value col :
  column parseUnmapped " " key value = Return col ->
  exists t, parseSqlSchemaFromObject value None = Return t
            /\ col = field_text " " key t.
Proof.
  unfold column; rewrite <- Mapper.parse_None.
  destruct (parseSqlSchemaFromObject value None) as [t| |]; cbn [bind];
    try discriminate.
  intros [= <-]; now exists t.
Qed.

(** What the loop pushes for a field is the field's column. *)
Lemma grouping_column_of mapping kv col :
  grouping_column mapping kv = Return col -> column_of mapping kv col.
Proof.
  destruct kv as [key value]; destruct mapping as [m|];
    cbn [grouping_column].
  - destruct (key_in key m) eqn:Hin.
    + unfold mapped_column.
      destruct (lookup key m) as [entry|] eqn:He; [|discriminate].
      destruct (entries entry) as [|[newKey newValue] rest] eqn:Hes;
        [discriminate|].
      intros H; apply column_returns in H as (t & Ht & ->).
      now apply (column_mapped _ m key value entry newKey newValue rest).
    + intros H; apply column_returns in H as (t & Ht & ->).
      now apply column_own.
  - intros H; apply column_returns in H as (t & Ht & ->).
    now apply column_own.
Qed.

(** A field has one column. *)
Lemma column_of_functional mapping kv c1 c2 :
  column_of mapping kv c1 -> column_of mapping kv c2 -> c1 = c2.
Proof.
  intros H1 H2.
  destruct H1 as [key value t Hin Ht | m key value entry nk nv rest t -> He Hes Ht].
  - inversion H2 as [key' value' t' Hin' Ht' | m key' value' entry nk nv rest t' Hm He Hes Ht'];
      subst.
    + rewrite Ht in Ht'; now injection Ht' as <-.
    + unfold key_in in Hin; rewrite He in Hin; discriminate Hin.
  - inversion H2 as [key' value' t' Hin' Ht' | m' key' value' entry' nk' nv' rest' t' Hm He' Hes' Ht'];
      subst.
    + unfold key_in in Hin'; rewrite He in Hin'; discriminate Hin'.
    + injection Hm as <-.
      rewrite He in He'; injection He' as <-.
      rewrite Hes in Hes'; injection Hes' as <- <- <-.
      rewrite Ht in Ht'; now injection Ht' as <-.
Qed.

Lemma columns_functional mapping fields cols cols' :
  Forall2 (column_of mapping) fields cols ->
  Forall2 (column_of mapping) fields cols' -> cols' = cols.
Proof.
  intros H; revert cols'; induction H as [|kv c r cs Hc _ IH]; intros cols' H'.
  - now inversion H'.
  - inversion H' as [|kv' c' r' cs' Hc' Hr']; subst.
    f_equal; [now apply (column_of_functional mapping kv) | now apply IH].
Qed.

(** X5: a grouping that compiles, with or without a mapping, gives the
    columns of its fields, one for each field and in the order of the
    fields; the column of a field is [column_of] it, and no other list of
    columns fits the fields.  The mapping renames and retypes columns, it
    neither adds nor drops one. *)
Theorem one_column_per_field fields mapping out :
  implicit_grouping fields ->
  readSqlSchemaFromJson (JObj fields) mapping = Return out ->
  exists cols,
    Forall2 (column_of mapping) fields cols
    /\ (forall cols', Forall2 (column_of mapping) fields cols' -> cols' = cols)
    /\ List.length cols = List.length fields
    /\ parseSqlSchemaFromObject (JObj fields) mapping = Return (struct_of cols)
    /\ out = Str.join ", " cols.
Proof.
  intros Hg H.
  unfold readSqlSchemaFromJson in H.
  destruct (parseSqlSchemaFromObject (JObj fields) mapping) as [s| |] eqn:Hs;
    try discriminate H.
  pose proof Hs as Hs'.
  rewrite (Mapper.parse_grouping _ _ Hg) in Hs'.
  unfold grouping in Hs'; cbn [entries] in Hs'.
  destruct (sequence _) as [cols| |] eqn:Hcs; try discriminate Hs'.
  cbn [bind] in Hs'; injection Hs' as <-.
  assert (Hall : Forall2 (column_of mapping) fields cols).
  { apply sequence_Forall2 in Hcs.
    eapply Forall2_impl; [|exact Hcs].
    intros kv col; apply grouping_column_of. }
  exists cols; split; [exact Hall|].
  split; [intros cols'; now apply columns_functional|].
  split; [symmetry; exact (Forall2_length Hall)|].
  split; [reflexivity|].
  cbn [bind] in H.
  destruct (Mapper.unwrap_struct cols) as [E1 E2]; rewrite E1, E2 in H.
  now injection H as <-.
Qed.

Lemma one_column_per_field_witness :
  exists cols,
    Forall2 (column_of (Some Example.json_str_to_json_map))
      [("json_str", Example.ty "string");
       ("nested", JObj [("json_str", Example.ty "string")])] cols
    /\ (forall cols',
          Forall2 (column_of (Some Example.json_str_to_json_map))
            [("json_str", Example.ty "string");
             ("nested", JObj [("json_str", Example.ty "string")])] cols' ->
          cols' = cols)
    /\ List.length cols = 2
    /\ parseSqlSchemaFromObject Example.json_str_twice
         (Some Example.json_str_to_json_map) = Return (struct_of cols)
    /\ "json_map map<string, int>, nested struct<json_str string>"
       = Str.join ", " cols.
Proof.
  apply (one_column_per_field
           [("json_str", Example.ty "string");
            ("nested", JObj [("json_str", Example.ty "string")])]
           (Some Example.json_str_to_json_map)).
  - split; reflexivity.
  - reflexivity.
Defined.

(** X6: the loader's unwrapping is textual, so it also applies to a root
    that is an explicit object: its fields come out as the top-level
    column list, in the colon form "name: type". *)
Theorem explicit_object_root fields props types mapping :
  explicit_object fields props ->
  compiled props types ->
  readSqlSchemaFromJson (JObj fields) mapping
  = Return (Str.join ", " (rendered ": " props types)).
Proof.
  intros Ho Hc; apply Mapper.readSqlSchemaFromJson_struct.
  now apply Mapper.explicit_object_text.
Qed.

Lemma explicit_object_root_witness :
  readSqlSchemaFromJson
    (JObj [("type", JStr "object");
           ("properties", JObj [("id", Example.ty "string");
                                ("ts", Example.ty "timestamp")])]) None
  = Return "id: string, ts: bigint".
Proof.
  apply (explicit_object_root _ [("id", Example.ty "string");
                                 ("ts", Example.ty "timestamp")]
           ["string"; "bigint"]).
  - split; reflexivity.
  - repeat constructor.
Defined.

(** X7: a document without any field is compiled to the empty column
    list, whatever the mapping: the empty object, but also a number, a
    boolean, the empty string and the empty array. *)
Theorem empty_document data mapping :
  data <> JNull ->
  entries data = [] ->
  parseSqlSchemaFromObject data mapping = Return "struct<>"
  /\ readSqlSchemaFromJson data mapping = Return "".
Proof.
  intros Hnull He.
  assert (H : parseSqlSchemaFromObject data mapping = Return "struct<>").
  { destruct data as [| b | z | s | items | fields];
      try contradiction; cbn [entries] in He;
      try (subst; reflexivity).
    - cbn [parseSqlSchemaFromObject]; unfold grouping; cbn [entries].
      now rewrite He.
    - cbn [parseSqlSchemaFromObject]; unfold grouping; cbn [entries].
      now rewrite He. }
  split; [exact H|].
  unfold readSqlSchemaFromJson; rewrite H; reflexivity.
Qed.

Lemma empty_document_witness :
  readSqlSchemaFromJson (JObj []) (Some Example.json_str_to_json_map)
  = Return ""
  /\ readSqlSchemaFromJson (JNum 42) None = Return "".
Proof.
  split; apply empty_document; try discriminate; reflexivity.
Defined.

(** ** Nodes that lack a sibling key *)

(** X8: a composite node that lacks what its type needs makes the host
    throw: an array without "items", a decimal without "properties", a map
    without "properties", without "key", or (its key compiled) without
    "value". *)
Theorem missing_sibling_throws fields mapping :
  (string_type fields = Some "array" -> lookup "items" fields = None ->
   parseSqlSchemaFromObject (JObj fields) mapping = Throw TypeError)
  /\ (string_type fields = Some "decimal" ->
      lookup "properties" fields = None ->
      parseSqlSchemaFromObject (JObj fields) mapping = Throw TypeError)
  /\ (string_type fields = Some "map" ->
      lookup "properties" fields = None ->
      parseSqlSchemaFromObject (JObj fields) mapping = Throw TypeError)
  /\ (forall props,
         string_type fields = Some "map" ->
         lookup "properties" fields = Some (JObj props) ->
         lookup "key" props = None ->
         parseSqlSchemaFromObject (JObj fields) mapping = Throw TypeError)
  /\ (forall props key k,
         string_type fields = Some "map" ->
         lookup "properties" fields = Some (JObj props) ->
         lookup "key" props = Some key ->
         parseSqlSchemaFromObject key None = Return k ->
         lookup "value" props = None ->
         parseSqlSchemaFromObject (JObj fields) mapping = Throw TypeError).
Proof.
  split; [|split; [|split; [|split]]].
  - intros Ht Hi; rewrite (Mapper.parse_typed _ _ _ Ht).
    unfold typed_node; cbn -[find]; now rewrite (Mapper.find_absent _ _ _ _ Hi).
  - intros Ht Hp; rewrite (Mapper.parse_typed _ _ _ Ht).
    unfold typed_node; cbn -[lookup]; now rewrite Hp.
  - intros Ht Hp; rewrite (Mapper.parse_typed _ _ _ Ht).
    unfold typed_node; cbn -[find]; now rewrite (Mapper.find_absent _ _ _ _ Hp).
  - intros props Ht Hp Hk; rewrite (Mapper.parse_typed _ _ _ Ht).
    unfold typed_node; cbn -[find].
    rewrite (Mapper.find_present _ _ _ _ _ Hp); cbn [rec_at].
    now rewrite (Mapper.find_absent _ _ _ _ Hk).
  - intros props key k Ht Hp Hk Hkey Hv; rewrite (Mapper.parse_typed _ _ _ Ht).
    unfold typed_node; cbn -[find].
    rewrite !(Mapper.find_present _ _ _ _ _ Hp); cbn [rec_at].
    rewrite (Mapper.find_present _ _ _ _ _ Hk), <- Mapper.parse_None, Hkey.
    cbn [bind]; now rewrite (Mapper.find_absent _ _ _ _ Hv).
Qed.

Lemma missing_sibling_throws_witness :
  readSqlSchemaFromJson (JObj [("tags", Example.ty "array")]) None
  = Throw TypeError
  /\ parseSqlSchemaFromObject
       (JObj [("type", JStr "map");
              ("properties", JObj [("key", Example.ty "string")])]) None
     = Throw TypeError.
Proof.
  split.
  - apply Mapper.readSqlSchemaFromJson_throw.
    apply (Mapper.first_failure _ [] "tags" (Example.ty "array") [] []);
      [split; reflexivity | reflexivity | constructor |].
    apply (proj1 (missing_sibling_throws [("type", JStr "array")] None));
      reflexivity.
  - apply (proj2 (proj2 (proj2 (proj2
             (missing_sibling_throws
                [("type", JStr "map");
                 ("properties", JObj [("key", Example.ty "string")])] None))))
             [("key", Example.ty "string")] (Example.ty "string") "string");
      reflexivity.
Defined.

(** X9: two malformed nodes do not fail.  An object node without
    "properties" is the empty struct, and a decimal node whose properties
    lack the precision or the scale is rendered with NaN in its place. *)
Theorem missing_sibling_returns fields mapping :
  (string_type fields = Some "object" ->
   lookup "properties" fields = None ->
   parseSqlSchemaFromObject (JObj fields) mapping = Return "struct<>")
  /\ (forall props (s : Z),
         string_type fields = Some "decimal" ->
         lookup "properties" fields = Some (JObj props) ->
         lookup "precision" props = None ->
         lookup "scale" props = Some (JNum s) ->
         safe_integer s = true ->
         parseSqlSchemaFromObject (JObj fields) mapping
         = Return ("decimal(NaN," ++ Z_text s ++ ")"))
  /\ (forall props (p : Z),
         string_type fields = Some "decimal" ->
         lookup "properties" fields = Some (JObj props) ->
         lookup "precision" props = Some (JNum p) ->
         safe_integer p = true ->
         lookup "scale" props = None ->
         parseSqlSchemaFromObject (JObj fields) mapping
         = Return ("decimal(" ++ Z_text p ++ ",NaN)")).
Proof.
  split; [|split].
  - intros Ht Hp; rewrite (Mapper.parse_typed _ _ _ Ht).
    unfold typed_node; cbn -[find].
    now rewrite (Mapper.find_absent _ _ _ _ Hp).
  - intros props s Ht Hp Hprec Hscale Hs.
    rewrite (Mapper.parse_typed _ _ _ Ht).
    unfold typed_node; cbn -[lookup get NumberText].
    rewrite Hp; cbn [get]; rewrite Hprec, Hscale.
    rewrite (Mapper.number_text_integer s s eq_refl Hs); reflexivity.
  - intros props p Ht Hp Hprec Hsafe Hscale.
    rewrite (Mapper.parse_typed _ _ _ Ht).
    unfold typed_node; cbn -[lookup get NumberText].
    rewrite Hp; cbn [get]; rewrite Hprec, Hscale.
    rewrite (Mapper.number_text_integer p p eq_refl Hsafe); reflexivity.
Qed.

Lemma missing_sibling_returns_witness :
  parseSqlSchemaFromObject (Example.ty "object") None = Return "struct<>"
  /\ parseSqlSchemaFromObject
       (JObj [("type", JStr "decimal");
              ("properties", JObj [("scale", JNum 2)])]) None
     = Return "decimal(NaN,2)".
Proof.
  split.
  - apply (proj1 (missing_sibling_returns [("type", JStr "object")] None));
      reflexivity.
  - apply (proj1 (proj2 (missing_sibling_returns
                           [("type", JStr "decimal");
                            ("properties", JObj [("scale", JNum 2)])] None))
             [("scale", JNum 2)] 2%Z); reflexivity.
Defined.

(** ** The recursion on a string *)

Lemma nesting_item items v :
  In v items -> nesting v < nesting (JArr items).
Proof.
  cbn [nesting]; induction items as [|x r IH]; cbn [In fold_right];
    [contradiction|].
  intros [-> | H]; [lia | specialize (IH H); lia].
Qed.

Lemma nesting_field fields kv :
  In kv fields -> nesting (snd kv) < nesting (JObj fields).
Proof.
  cbn [nesting]; induction fields as [|x r IH]; cbn [In fold_right];
    [contradiction|].
  intros [-> | H]; [lia | specialize (IH H); lia].
Qed.

Lemma find_ext {A} (f g : json -> A) (a b : A) k l :
  (forall kv, In kv l -> f (snd kv) = g (snd kv)) -> a = b ->
  find f a k l = find g b k l.
Proof.
  intros H ->; induction l as [|[k' v] r IH]; cbn [find]; [reflexivity|].
  destruct (k =? k').
  - apply (H (k', v)); now left.
  - apply IH; intros kv Hin; apply H; now right.
Qed.

Section Frames.

Variable rec : json -> outcome string.
Variable n : nat.

(** The frame below overflows on every non-empty string, and gives the
    values nested less than [n] deep what the mapper gives them. *)
Hypothesis overflows : forall s, s <> "" -> rec (JStr s) = Throw RangeError.
Hypothesis agrees : forall v, nesting v < n -> rec v = parseUnmapped v.

Lemma loop_fields sep fields :
  (forall kv, In kv fields -> nesting (snd kv) < n) ->
  sequence (map (fun kv => column rec sep (fst kv) (snd kv)) fields)
  = columns parseUnmapped sep fields.
Proof.
  induction fields as [|[k v] r IH]; intros H; cbn [map sequence columns];
    [reflexivity|].
  unfold column at 1 3; cbn [fst snd].
  rewrite (agrees v) by (apply (H (k, v)); now left).
  rewrite IH by (intros kv Hin; apply H; now right).
  reflexivity.
Qed.

Lemma loop_items sep items : forall i,
  (forall v, In v items -> nesting v < n) ->
  sequence (map (fun kv => column rec sep (fst kv) (snd kv))
              (elements i items))
  = columns_of_items parseUnmapped sep i items.
Proof.
  induction items as [|v r IH]; intros i H;
    cbn [elements map sequence columns_of_items]; [reflexivity|].
  unfold column at 1 3; cbn [fst snd].
  rewrite (agrees v) by (apply H; now left).
  rewrite IH by (intros w Hin; apply H; now right).
  reflexivity.
Qed.

(** The first turn of a loop over a non-empty string calls the frame below
    on a string of one character. *)
Lemma loop_string sep s :
  s <> "" -> loop rec sep (JStr s) = Throw RangeError.
Proof.
  destruct s as [|c r]; [contradiction | intros _].
  unfold loop; cbn [entries chars map sequence fst snd]; unfold column at 1.
  rewrite overflows by discriminate; reflexivity.
Qed.

Lemma loop_for_in sep x :
  nesting x <= n -> loop rec sep x = for_in parseUnmapped sep x.
Proof.
  intros Hx; destruct x as [| b | z | s | items | fields]; try reflexivity.
  - destruct s as [|c r]; [reflexivity|].
    now apply loop_string.
  - unfold loop; cbn [entries for_in]; rewrite loop_items; [reflexivity|].
    intros v Hin; pose proof (nesting_item _ _ Hin); lia.
  - unfold loop; cbn [entries for_in]; rewrite loop_fields; [reflexivity|].
    intros kv Hin; pose proof (nesting_field _ _ Hin); lia.
Qed.

Lemma rec_at_ext k p :
  nesting p <= n -> rec_at rec k p = rec_at parseUnmapped k p.
Proof.
  intros Hp; destruct p as [| b | z | s | items | fields]; try reflexivity.
  cbn [rec_at]; apply find_ext; [|reflexivity].
  intros kv Hin; apply agrees.
  pose proof (nesting_field _ _ Hin); lia.
Qed.

Lemma node_typed t fields :
  nesting (JObj fields) <= n ->
  node rec t fields = typed_node parseUnmapped t fields.
Proof.
  intros Hn.
  assert (Hchild : forall kv, In kv fields -> nesting (snd kv) < n).
  { intros kv Hin; pose proof (nesting_field _ _ Hin); lia. }
  unfold node; destruct (String.eqb_spec t "object") as [->|Hobj].
  - change (typed_node parseUnmapped "object" fields)
      with (find (for_in parseUnmapped ": ") (Return (struct_of []))
              "properties" fields).
    apply find_ext; [|reflexivity].
    intros kv Hin; apply loop_for_in.
    specialize (Hchild kv Hin); lia.
  - unfold typed_node.
    repeat match goal with
           | |- (if ?t =? ?k then _ else _) = _ =>
               destruct (String.eqb_spec t k); [try reflexivity|]
           end; try reflexivity; try contradiction.
    + rewrite (find_ext rec parseUnmapped (Throw TypeError) (Throw TypeError)
                 "items" fields); [reflexivity | | reflexivity].
      intros kv Hin; now apply agrees, Hchild.
    + rewrite (find_ext (rec_at rec "key") (rec_at parseUnmapped "key")
                 (Throw TypeError) (Throw TypeError) "properties" fields);
        [|intros kv Hin; apply rec_at_ext; specialize (Hchild kv Hin); lia
         |reflexivity].
      rewrite (find_ext (rec_at rec "value") (rec_at parseUnmapped "value")
                 (Throw TypeError) (Throw TypeError) "properties" fields);
        [reflexivity
        |intros kv Hin; apply rec_at_ext; specialize (Hchild kv Hin); lia
        |reflexivity].
Qed.

End Frames.

(** Called on a non-empty string, the mapper calls itself on the string's
    first character, and on a string of one character it calls itself on
    that same string: no stack has room for it. *)
Lemma parseWithin_string depth s :
  s <> "" -> parseWithin depth (JStr s) = Throw RangeError.
Proof.
  revert s; induction depth as [|d IH]; intros s Hs; [reflexivity|].
  cbn [parseWithin]; now apply loop_string.
Qed.

(** On a stack with room for more calls than the document nests values,
    the mapper followed call by call does what [parseUnmapped] states. *)
Lemma parseWithin_parseUnmapped depth : forall data,
  nesting data < depth -> parseWithin depth data = parseUnmapped data.
Proof.
  induction depth as [|d IH]; intros data Hd; [lia|].
  assert (Hs : forall s, s <> "" -> parseWithin d (JStr s) = Throw RangeError)
    by (intros s; apply parseWithin_string).
  assert (Hle : nesting data <= d) by lia.
  destruct data as [| b | z | s | items | fields];
    cbn [parseWithin parseUnmapped];
    try reflexivity; try (now apply (loop_for_in _ d)).
  destruct (string_type fields) as [t|].
  - now apply (node_typed _ d).
  - apply find_ext; [|now apply (loop_for_in _ d)].
    intros kv Hin; apply IH.
    pose proof (nesting_field _ _ Hin); lia.
Qed.

(** X10: the recursion on a string never ends.  Followed call by call on a
    stack of any depth, the mapper called on a non-empty string throws
    RangeError; on a stack deeper than the document nests values it does
    what [parseSqlSchemaFromObject] states for the call without mapping.
    So a field whose value is a non-empty string, as in {"id": "string"}
    written for {"id": {"type": "string"}}, ends the pass with a
    RangeError, once the fields before it have compiled. *)
Theorem string_leaf_overflows :
  (forall depth s, s <> "" -> parseWithin depth (JStr s) = Throw RangeError)
  /\ (forall depth data,
         nesting data < depth ->
         parseWithin depth data = parseSqlSchemaFromObject data None)
  /\ (forall depth fields pre key s post types,
         implicit_grouping fields ->
         fields = (pre ++ (key, JStr s) :: post)%list ->
         compiled pre types ->
         s <> "" ->
         nesting (JObj fields) < depth ->
         parseWithin depth (JObj fields) = Throw RangeError
         /\ readSqlSchemaFromJson (JObj fields) None = Throw RangeError).
Proof.
  split; [exact parseWithin_string | split].
  - intros depth data Hd.
    rewrite Mapper.parse_None; now apply parseWithin_parseUnmapped.
  - intros depth fields pre key s post types Hg Hf Hpre Hs Hd.
    assert (H : parseSqlSchemaFromObject (JObj fields) None
                = Throw RangeError).
    { apply (Mapper.first_failure fields pre key (JStr s) post types);
        try assumption.
      rewrite Mapper.parse_None, <- (parseWithin_parseUnmapped 1) by (cbn; lia).
      now apply parseWithin_string. }
    split; [|now apply Mapper.readSqlSchemaFromJson_throw].
    rewrite (parseWithin_parseUnmapped _ _ Hd), <- Mapper.parse_None.
    exact H.
Qed.

Lemma string_leaf_overflows_witness :
  parseWithin 1 (JStr "timestamp") = Throw RangeError
  /\ parseWithin 3 Example.id_ts = parseSqlSchemaFromObject Example.id_ts None
  /\ parseWithin 3
       (JObj [("id", Example.ty "string"); ("ts", JStr "timestamp")])
     = Throw RangeError
  /\ readSqlSchemaFromJson
       (JObj [("id", Example.ty "string"); ("ts", JStr "timestamp")]) None
     = Throw RangeError.
Proof.
  destruct string_leaf_overflows as (Hstring & Hdepth & Hleaf).
  split; [|split].
  - apply Hstring; discriminate.
  - apply Hdepth; cbn; lia.
  - apply (Hleaf 3 _ [("id", Example.ty "string")] "ts"
             "timestamp" [] ["string"]).
    + split; reflexivity.
    + reflexivity.
    + repeat constructor.
    + discriminate.
    + cbn; lia.
Defined.

(** ** Edges of the overlay *)

Lemma overlay_failure fields m pre kv post cols e :
  implicit_grouping fields ->
  fields = (pre ++ kv :: post)%list ->
  Forall2 (resolved m) pre cols ->
  grouping_column (Some m) kv = Throw e ->
  parseSqlSchemaFromObject (JObj fields) (Some m) = Throw e.
Proof.
  intros Hg -> Hpre Hkv.
  rewrite (Mapper.parse_grouping _ _ Hg); unfold grouping; cbn [entries].
  rewrite map_app, Mapper.sequence_app, (Mapper.sequence_resolved _ _ _ Hpre).
  cbn [bind map sequence]; now rewrite Hkv.
Qed.

(** X11: [key in mapping] also finds what every object inherits.  When a
    mapping is given, even an empty one, a field named like a property of
    [Object.prototype] ("constructor", "toString", "valueOf", ...) and not
    named in the mapping makes the host throw a TypeError; with no mapping
    the same fields compile. *)
Theorem inherited_key_throws fields m pre key value post cols :
  implicit_grouping fields ->
  fields = (pre ++ (key, value) :: post)%list ->
  Forall2 (resolved m) pre cols ->
  In key OBJECT_PROTOTYPE_KEYS ->
  lookup key m = None ->
  readSqlSchemaFromJson (JObj fields) (Some m) = Throw TypeError.
Proof.
  intros Hg Hf Hpre Hin Hm; apply Mapper.readSqlSchemaFromJson_throw.
  apply (overlay_failure fields m pre (key, value) post cols);
    try assumption.
  cbn [grouping_column]; unfold key_in, mapped_column; rewrite Hm.
  rewrite Sanitizer.includes_existsb.
  replace (existsb (String.eqb key) OBJECT_PROTOTYPE_KEYS) with true;
    [reflexivity|].
  symmetry; apply existsb_exists; exists key; split;
    [exact Hin | apply String.eqb_refl].
Qed.

Lemma inherited_key_throws_witness :
  readSqlSchemaFromJson
    (JObj [("id", Example.ty "string"); ("constructor", Example.ty "string")])
    (Some [])
  = Throw TypeError
  /\ readSqlSchemaFromJson
       (JObj [("id", Example.ty "string");
              ("constructor", Example.ty "string")]) None
     = Return "id string, constructor string".
Proof.
  split; [|reflexivity].
  apply (inherited_key_throws _ [] [("id", Example.ty "string")]
           "constructor" (Example.ty "string") [] [field_text " " "id" "string"]).
  - split; reflexivity.
  - reflexivity.
  - constructor; [|constructor].
    apply resolved_original; reflexivity.
  - simpl; tauto.
  - reflexivity.
Defined.

(** X12: the shape of a mapping entry.  An entry without a key of its own
    (the empty object, a number, a boolean, null, the empty string or
    array) makes the host throw a TypeError at the field it is meant to
    replace. *)
Theorem empty_entry_throws fields m pre key value post cols entry :
  implicit_grouping fields ->
  fields = (pre ++ (key, value) :: post)%list ->
  Forall2 (resolved m) pre cols ->
  lookup key m = Some entry ->
  entries entry = [] ->
  readSqlSchemaFromJson (JObj fields) (Some m) = Throw TypeError.
Proof.
  intros Hg Hf Hpre Hm He; apply Mapper.readSqlSchemaFromJson_throw.
  apply (overlay_failure fields m pre (key, value) post cols);
    try assumption.
  cbn [grouping_column]; rewrite (Mapper.key_in_own _ _ _ Hm).
  unfold mapped_column; now rewrite Hm, He.
Qed.

Lemma empty_entry_throws_witness :
  readSqlSchemaFromJson Example.json_str (Some [("json_str", JObj [])])
  = Throw TypeError.
Proof.
  apply (empty_entry_throws _ [("json_str", JObj [])] [] "json_str"
           (Example.ty "string") [] [] (JObj []));
    try reflexivity; [split; reflexivity | constructor].
Defined.

Lemma lookup_head key entry m0 k :
  lookup k ((key, entry) :: m0)
  = if String.eqb k key then Some entry else lookup k m0.
Proof. reflexivity. Qed.

(** X13: of a mapping entry with several keys only the first counts: the
    result is that of the entry cut down to its first key and value. *)
Theorem entry_first_key_only data key newKey newValue more m0 :
  parseSqlSchemaFromObject data
    (Some ((key, JObj ((newKey, newValue) :: more)) :: m0))
  = parseSqlSchemaFromObject data
      (Some ((key, JObj [(newKey, newValue)]) :: m0))
  /\ readSqlSchemaFromJson data
       (Some ((key, JObj ((newKey, newValue) :: more)) :: m0))
     = readSqlSchemaFromJson data
         (Some ((key, JObj [(newKey, newValue)]) :: m0)).
Proof.
  assert (E : parseSqlSchemaFromObject data
                (Some ((key, JObj ((newKey, newValue) :: more)) :: m0))
              = parseSqlSchemaFromObject data
                  (Some ((key, JObj [(newKey, newValue)]) :: m0))).
  { apply Mapper.parse_agree; intros [k v] _.
    cbn [grouping_column]; unfold key_in, mapped_column.
    rewrite !lookup_head.
    destruct (String.eqb k key); reflexivity. }
  split; [exact E | unfold readSqlSchemaFromJson; now rewrite E].
Qed.

End MapperEdges.

(** * Properties of the resource names *)

Module Arn.

Lemma prefix_app (p r : string) : Str.startsWith (p ++ r) p = true.
Proof.
  induction p as [|c p IH]; simpl; [reflexivity|].
  now rewrite Ascii.eqb_refl, IH.
Qed.

Lemma prefix_split (b p : string) :
  Str.startsWith b p = true -> exists r, b = p ++ r.
Proof.
  revert b; induction p as [|c p IH]; intros b; simpl.
  - intros _; now exists b.
  - destruct b as [|d b]; [discriminate|].
    intros H; apply andb_true_iff in H as [Hc Hp].
    apply Ascii.eqb_eq in Hc; subst d.
    destruct (IH _ Hp) as [r ->]; now exists r.
Qed.

Lemma prefix_short (b p : string) :
  String.length b < String.length p -> Str.startsWith b p = false.
Proof.
  revert b; induction p as [|c p IH]; intros b; simpl; [lia|].
  destruct b as [|d b]; [reflexivity|]; simpl; intros H.
  rewrite IH by lia; apply andb_false_r.
Qed.

Lemma startsWith_prefix (b p : string) : startsWith b p = Str.startsWith b p.
Proof.
  unfold startsWith, lastIndexOf.
  destruct (String.length b <? String.length p)%nat eqn:Hlen.
  - apply Nat.ltb_lt in Hlen; now rewrite prefix_short.
  - cbn [Nat.min lastIndexOf_down skip].
    destruct (Str.startsWith b p); reflexivity.
Qed.

(** X14: [startsWith], written with [lastIndexOf], is the prefix test: it
    holds exactly when the base string is the substring followed by
    something, hence for every base string when the substring is empty,
    and never when the substring is the longer one. *)
Theorem startsWith_iff (baseString subString : string) :
  (startsWith baseString subString = true
   <-> exists rest, baseString = subString ++ rest)
  /\ startsWith baseString "" = true
  /\ (String.length baseString < String.length subString ->
      startsWith baseString subString = false).
Proof.
  rewrite !startsWith_prefix; split; [split|split].
  - apply prefix_split.
  - intros [rest ->]; apply prefix_app.
  - reflexivity.
  - apply prefix_short.
Qed.

Lemma startsWith_iff_witness :
  startsWith "arn:aws:s3:::bucket" "arn" = true
  /\ startsWith "ar" "arn" = false.
Proof.
  split.
  - apply (proj1 (startsWith_iff "arn:aws:s3:::bucket" "arn")).
    now exists ":aws:s3:::bucket".
  - apply (proj2 (proj2 (startsWith_iff "ar" "arn"))); simpl; lia.
Defined.

Lemma startsWith_arn (rest : string) : startsWith ("arn" ++ rest) "arn" = true.
Proof. rewrite startsWith_prefix; reflexivity. Qed.

(** X15: whatever begins with "arn" is taken for an ARN and returned as
    it is, with no look at the service or the resource.  So the ARN built
    for a resource name, or passed through, is a fixed point: resolving
    the result again gives the result. *)
Theorem getArn_fixed_point scope id param service resource out :
  startsWith param "/" = false ->
  getArn scope id param service resource = Success out ->
  (forall scope' id' service' resource',
      getArn scope' id' out service' resource' = Success out)
  /\ (forall rest, param = "arn" ++ rest -> out = param).
Proof.
  intros Hssm H; unfold getArn in H; rewrite Hssm in H; cbn [andb negb] in H.
  destruct (startsWith param "arn") eqn:Harn.
  - injection H as <-; split; [|reflexivity].
    intros scope' id' service' resource'; unfold getArn; now rewrite Harn.
  - cbn [negb] in H; destruct service as [sv|]; [|discriminate H].
    injection H as <-; split.
    + intros scope' id' service' resource'; unfold getArn.
      match goal with
      | |- context [startsWith ?o "arn"] =>
          replace (startsWith o "arn") with true
            by (rewrite startsWith_prefix; reflexivity)
      end.
      reflexivity.
    + intros rest ->; rewrite startsWith_arn in Harn; discriminate Harn.
Qed.

Lemma getArn_fixed_point_witness :
  let scope := {| region := "eu-west-1"; account := "1234567890";
                  responseField := fun _ name => name |} in
  getArn scope "id" "arn:aws:dynamodb:eu-west-1:1234567890:table/example_table"
    None None
  = Success "arn:aws:dynamodb:eu-west-1:1234567890:table/example_table".
Proof.
  intros scope.
  apply (proj1 (getArn_fixed_point scope "id" "example_table"
                  (Some "dynamodb") (Some "table") _ eq_refl eq_refl)).
Defined.

(** X16: [getArn] fails in one case only: the parameter begins neither
    with "arn" nor with "/", and no service is given.  The error of its
    last branch is never thrown. *)
Theorem getArn_failure scope id param service resource e :
  getArn scope id param service resource = Failure e
  <-> e = CanNotResolve
      /\ service = None
      /\ startsWith param "arn" = false
      /\ startsWith param "/" = false.
Proof.
  unfold getArn; split.
  - destruct (startsWith param "arn"); [discriminate|].
    destruct (startsWith param "/"); cbn [andb negb]; [discriminate|].
    destruct service; [discriminate|].
    now intros [= <-].
  - intros (-> & -> & -> & ->); reflexivity.
Qed.

Lemma getArn_failure_witness :
  getArn {| region := "eu-west-1"; account := "1234567890";
            responseField := fun _ name => name |}
    "id" "example_bucket" None (Some "table")
  = Failure CanNotResolve.
Proof. apply getArn_failure; repeat split. Defined.

(** For the service "s3" the ARN of a resource name has neither region
    nor account; an empty resource counts as none. *)
Lemma getArn_s3 scope id param resource :
  startsWith param "arn" = false ->
  startsWith param "/" = false ->
  getArn scope id param (Some "s3") resource
  = Success ("arn:aws:s3:::"
             ++ match resource with
                | None | Some "" => ""
                | Some r => r ++ "/"
                end ++ param).
Proof.
  intros Harn Hssm; unfold getArn; rewrite Harn, Hssm; cbn.
  destruct resource as [[|c r]|]; reflexivity.
Qed.

Lemma getArn_s3_witness :
  getArn {| region := "eu-west-1"; account := "1234567890";
            responseField := fun _ name => name |}
    "id" "example_bucket" (Some "s3") None
  = Success "arn:aws:s3:::example_bucket".
Proof. apply getArn_s3; reflexivity. Defined.

End Arn.

(** * Properties of the table stack *)

Module TableStack.

Import IcebergTableStack.

(** X17: when the columns are given, the content of the schema file plays
    no part in the custom resource: it is created, with the same calls,
    for every schema, those that do not compile included, and its default
    CREATE TABLE statement is built from the columns given. *)
Theorem columns_bypass_schema scope prefix env props cols :
  columns props = Some cols ->
  (forall schema schema',
      createTable scope prefix env props schema
      = createTable scope prefix env props schema')
  /\ (forall schema, exists resource,
         createTable scope prefix env props schema = Return resource
         /\ (onCreateQuery props = None ->
             QueryString (onCreate resource) = createQuery props cols)).
Proof.
  intros Hc; split.
  - intros schema schema'; unfold createTable; now rewrite Hc.
  - intros schema; unfold createTable; rewrite Hc; cbn [bind].
    eexists; split; [reflexivity|].
    now intros ->.
Qed.

(** X18: without given columns the schema is compiled before anything is
    looked at, so its failure is the failure of [createTable], even when
    a query of the caller's replaces the CREATE TABLE statement; when the
    schema compiles, that query is the one that is run. *)
Theorem schema_failure_surfaces scope prefix env props schema :
  columns props = None ->
  (forall e,
      readSqlSchemaFromJson schema (mapping props) = Throw e ->
      createTable scope prefix env props schema = Throw e)
  /\ (forall cols query,
         readSqlSchemaFromJson schema (mapping props) = Return cols ->
         onCreateQuery props = Some query ->
         exists resource,
           createTable scope prefix env props schema = Return resource
           /\ QueryString (onCreate resource) = query).
Proof.
  intros Hc; split.
  - intros e He; unfold createTable; now rewrite Hc, He.
  - intros cols query Hcols Hq; unfold createTable.
    rewrite Hc, Hcols, Hq; cbn [bind].
    eexists; split; reflexivity.
Qed.

Lemma columns_bypass_schema_witness :
  createTable example_scope "iceberg-example-Table" "dev"
    (with_columns (Some "id string") example_props) Example.x_bogus
  = createTable example_scope "iceberg-example-Table" "dev"
      (with_columns (Some "id string") example_props) Example.id_ts.
Proof.
  apply (proj1 (columns_bypass_schema example_scope "iceberg-example-Table"
                  "dev" (with_columns (Some "id string") example_props)
                  "id string" eq_refl)).
Defined.

Lemma schema_failure_surfaces_witness :
  createTable example_scope "iceberg-example-Table" "dev"
    (with_onCreateQuery (Some "SELECT 1") example_props) Example.x_bogus
  = Throw (UnknownType "bogus").
Proof.
  apply (proj1 (schema_failure_surfaces example_scope "iceberg-example-Table"
                  "dev" (with_onCreateQuery (Some "SELECT 1") example_props)
                  Example.x_bogus eq_refl)).
  reflexivity.
Defined.

Lemma append_assoc (a b c : string) : (a ++ b) ++ c = a ++ b ++ c.
Proof. induction a as [|x a IH]; simpl; [reflexivity | now rewrite IH]. Qed.

(** X19: the two optional lists are not treated alike when they are
    empty.  An empty [partitionedBy] is as good as none; an empty
    [extraColumns] is not: the statement is the one for no extra columns
    and a column list that ends in ", ", that is "(..., ) ". *)
Theorem empty_lists props cols :
  (partitionedBy props = Some [] ->
   createQuery props cols = createQuery (with_partitionedBy None props) cols)
  /\ (extraColumns props = Some [] ->
      createQuery props cols
      = createQuery (with_extraColumns None props) (cols ++ ", ")).
Proof.
  split; intros H; unfold createQuery, location;
    cbn [with_partitionedBy with_extraColumns icebergTableName extraColumns
         partitionedBy bucketName bucketPrefix];
    rewrite H; [reflexivity|].
  rewrite !append_assoc; reflexivity.
Qed.

Lemma empty_lists_witness :
  createQuery (with_extraColumns (Some []) example_props) "id string"
  = createQuery example_props "id string, ".
Proof.
  apply (proj2 (empty_lists (with_extraColumns (Some []) example_props)
                  "id string") eq_refl).
Defined.

(** X20: the prefix of the output bucket counts only when the output
    bucket has a non-empty name.  Without one the queries write under the
    runtime bucket, at "athena/queries/", whatever the prefix. *)
Theorem output_prefix_needs_bucket scope prefix env props out :
  outputBucketName props = None \/ outputBucketName props = Some "" ->
  outputLocation scope prefix env (with_outputBucketPrefix out props)
  = outputLocation scope prefix env props
  /\ outputLocation scope prefix env props
     = "s3://"
       ++ getParameter scope (prefix ++ "-RuntimeBucketSSM")
            ("/service/data/" ++ env ++ "/published/data-lake/runtime-bucket")
       ++ "/athena/queries/".
Proof.
  intros [H | H]; unfold outputLocation;
    cbn [with_outputBucketPrefix outputBucketName outputBucketPrefix];
    rewrite H; split; reflexivity.
Qed.

Lemma output_prefix_needs_bucket_witness :
  outputLocation example_scope "iceberg-example-Table" "dev"
    (with_outputBucketPrefix (Some "queries/") example_props)
  = outputLocation example_scope "iceberg-example-Table" "dev" example_props.
Proof.
  apply (output_prefix_needs_bucket example_scope "iceberg-example-Table"
           "dev" example_props (Some "queries/")).
  now left.
Defined.

End TableStack.

(** * Properties of the parameter resolver *)

Module SSMFacts.

Import SSM.

Lemma numbered_app id c a b :
  numbered id c (a ++ b)
  = (numbered id c a ++ numbered id (c + List.length a) b)%list.
Proof.
  revert c; induction a as [|x a IH]; intros c; cbn [numbered app List.length].
  - now rewrite Nat.add_0_r.
  - rewrite IH; do 3 f_equal; lia.
Qed.

Lemma advanced_refl id st : advanced id [] st st.
Proof. split; cbn; [lia | now rewrite app_nil_r]. Qed.

Lemma advanced_trans id a b st1 st2 st3 :
  advanced id a st1 st2 -> advanced id b st2 st3 ->
  advanced id (a ++ b) st1 st3.
Proof.
  intros [C1 R1] [C2 R2]; split.
  - rewrite C2, C1, length_app; lia.
  - rewrite R2, R1, C1, numbered_app, app_assoc; reflexivity.
Qed.

Lemma advanced_request scope id s st :
  advanced id [s] st (snd (request scope id s st)).
Proof. split; cbn; [lia | reflexivity]. Qed.

Section Traversal.

Variable scope : Scope.
Variable id : string.

Let returns (j : json) : Prop :=
  meets_null j = false ->
  forall st, exists r st',
      recursiveResolve scope id j st = Return (r, st')
      /\ advanced id (parameters j) st st'.

Lemma fields_return l :
  Forall (fun kv => returns (snd kv)) l ->
  existsb (fun kv => meets_null (snd kv)) l = false ->
  forall acc st, exists acc' st',
      resolve_fields scope id (recursiveResolve scope id) l acc st
      = Return (acc', st')
      /\ advanced id (flat_map field_parameters l) st st'.
Proof.
  induction 1 as [|[key value] r Hv _ IH]; intros Hnull acc st.
  - exists acc, st; split; [reflexivity | apply advanced_refl].
  - cbn [existsb snd] in Hnull; apply orb_false_iff in Hnull as [Hn Hr].
    cbn [flat_map]; unfold field_parameters at 1; cbn [snd] in *.
    cbn [resolve_fields].
    destruct value as [| b | z | s | items | fields].
    + discriminate Hn.
    + destruct (IH Hr (assign acc key (JBool b)) st) as (a' & s' & E & A).
      exists a', s'; split; [exact E | exact A].
    + destruct (IH Hr (assign acc key (JNum z)) st) as (a' & s' & E & A).
      exists a', s'; split; [exact E | exact A].
    + destruct (Str.startsWith s "/").
      * destruct (request scope id s st) as [token st1] eqn:Hreq.
        destruct (IH Hr (assign acc key token) st1) as (a' & s' & E & A).
        exists a', s'; split; [exact E|].
        apply (advanced_trans id [s] _ st st1); [|exact A].
        replace st1 with (snd (request scope id s st)) by now rewrite Hreq.
        apply advanced_request.
      * destruct (IH Hr (assign acc key (JStr s)) st) as (a' & s' & E & A).
        exists a', s'; split; [exact E | exact A].
    + destruct (IH Hr (assign acc key (JArr items)) st) as (a' & s' & E & A).
      exists a', s'; split; [exact E | exact A].
    + destruct (Hv Hn st) as (v' & st1 & E1 & A1); rewrite E1; cbn [bind fst snd].
      destruct (IH Hr (assign acc key v') st1) as (a' & s' & E & A).
      exists a', s'; split; [exact E|].
      now apply (advanced_trans id _ _ st st1).
Qed.

Lemma resolve_returns j : returns j.
Proof.
  induction j as [| b | z | s | items _ | fields IH] using json_ind;
    intros Hnull st; try discriminate Hnull.
  1-4: eexists _, st; split; [reflexivity | apply advanced_refl].
  cbn [meets_null] in Hnull.
  destruct (fields_return fields IH Hnull [] st) as (a' & s' & E & A).
  exists (JObj a'), s'; cbn [recursiveResolve]; rewrite E; split;
    [reflexivity | exact A].
Qed.

Lemma fields_throw l :
  Forall (fun kv => meets_null (snd kv) = true ->
                    forall st, recursiveResolve scope id (snd kv) st
                               = Throw TypeError) l ->
  existsb (fun kv => meets_null (snd kv)) l = true ->
  forall acc st,
    resolve_fields scope id (recursiveResolve scope id) l acc st
    = Throw TypeError.
Proof.
  induction 1 as [|[key value] r Hv _ IH]; intros Hnull acc st;
    [discriminate Hnull|].
  cbn [existsb snd] in *; cbn [resolve_fields].
  destruct (meets_null value) eqn:Hn.
  - destruct value; try discriminate Hn; now rewrite (Hv eq_refl st).
  - cbn [orb] in Hnull.
    destruct value as [| b | z | s | items | fields];
      try discriminate Hn; try (apply (IH Hnull)).
    + destruct (Str.startsWith s "/"); [|apply (IH Hnull)].
      destruct (request scope id s st); apply (IH Hnull).
    + destruct (resolve_returns (JObj fields) Hn st) as (v' & st1 & E1 & _).
      rewrite E1; apply (IH Hnull).
Qed.

Lemma resolve_throws j :
  meets_null j = true ->
  forall st, recursiveResolve scope id j st = Throw TypeError.
Proof.
  induction j as [| b | z | s | items _ | fields IH] using json_ind;
    intros Hnull st; try discriminate Hnull; [reflexivity|].
  cbn [recursiveResolve]; now rewrite (fields_throw fields IH Hnull).
Qed.

Let unchanged (j : json) : Prop :=
  meets_null j = false -> parameters j = [] -> proto_free j = true ->
  forall st, recursiveResolve scope id j st = Return (j, st).

Lemma fields_unchanged l :
  Forall (fun kv => unchanged (snd kv)) l ->
  existsb (fun kv => meets_null (snd kv)) l = false ->
  flat_map field_parameters l = [] ->
  forallb (fun kv => negb (String.eqb (fst kv) "__proto__")
                     && proto_free (snd kv)) l = true ->
  forall acc st,
    resolve_fields scope id (recursiveResolve scope id) l acc st
    = Return ((acc ++ l)%list, st).
Proof.
  induction 1 as [|[key value] r Hv _ IH]; intros Hnull Hpar Hproto acc st.
  - cbn; now rewrite app_nil_r.
  - cbn [existsb flat_map forallb fst snd] in *.
    apply orb_false_iff in Hnull as [Hn Hr].
    apply app_eq_nil in Hpar as [Hp Hps].
    apply andb_true_iff in Hproto as [Hk Hps'].
    apply andb_true_iff in Hk as [Hk Hpv].
    apply negb_true_iff in Hk.
    assert (Hassign : forall x, assign acc key x = (acc ++ [(key, x)])%list)
      by (intros x; unfold assign; now rewrite Hk).
    assert (Hnext : forall st',
               resolve_fields scope id (recursiveResolve scope id) r
                 (acc ++ [(key, value)]) st'
               = Return ((acc ++ (key, value) :: r)%list, st')).
    { intros st'; rewrite (IH Hr Hps Hps').
      now rewrite <- app_assoc. }
    unfold field_parameters in Hp; cbn [snd] in Hp.
    cbn [resolve_fields].
    destruct value as [| b | z | s | items | fields];
      try discriminate Hn; rewrite ?Hassign; try apply Hnext.
    + destruct (Str.startsWith s "/"); [discriminate Hp | apply Hnext].
    + rewrite (Hv Hn Hp Hpv st); cbn [bind fst snd].
      rewrite Hassign; apply Hnext.
    + rewrite (Hv Hn Hp Hpv st); cbn [bind fst snd].
      rewrite Hassign; apply Hnext.
Qed.

Lemma resolve_unchanged j : unchanged j.
Proof.
  induction j as [| b | z | s | items _ | fields IH] using json_ind;
    intros Hnull Hpar Hproto st; try discriminate Hnull; try reflexivity.
  cbn [recursiveResolve meets_null parameters proto_free] in *.
  now rewrite (fields_unchanged fields IH Hnull Hpar Hproto).
Qed.

End Traversal.

(** ** Construct ids *)

Lemma nat_text_inj n m : nat_text n = nat_text m -> n = m.
Proof.
  unfold nat_text; intros H.
  assert (Hnil : forall k, Nat.to_uint k <> Decimal.Nil).
  { intros k Hk; pose proof (f_equal Nat.of_uint Hk) as Hk'.
    rewrite DecimalNat.Unsigned.of_to in Hk'; cbn in Hk'; subst k.
    vm_compute in Hk; discriminate Hk. }
  apply DecimalNat.Unsigned.to_uint_inj.
  apply (f_equal NilZero.uint_of_string) in H.
  rewrite !NilZero.usu in H by apply Hnil.
  now injection H.
Qed.

Lemma append_cancel (p x y : string) : p ++ x = p ++ y -> x = y.
Proof.
  induction p as [|c p IH]; cbn; [trivial|].
  intros [= H]; auto.
Qed.

Lemma numbered_ids id c names p :
  In p (map fst (numbered id c names)) ->
  exists i, c < i /\ p = id ++ "-" ++ nat_text i.
Proof.
  revert c; induction names as [|name r IH]; intros c; cbn; [tauto|].
  intros [<- | H].
  - exists (S c); split; [lia | reflexivity].
  - destruct (IH _ H) as (i & Hi & ->); exists i; split; [lia | reflexivity].
Qed.

Lemma numbered_NoDup id c names : NoDup (map fst (numbered id c names)).
Proof.
  revert c; induction names as [|name r IH]; intros c; cbn; constructor;
    [|apply IH].
  intros H; apply numbered_ids in H as (i & Hi & E).
  apply append_cancel in E; cbn in E; injection E as E.
  apply nat_text_inj in E; lia.
Qed.

(** X21: when the traversal meets no [null], [resolveSSMParameters]
    returns, and it has called [getParameter] once for each string that
    begins with "/" among the values of the object's fields, at any depth
    of objects and in their order, under the construct ids id-1, id-2, ...,
    which are pairwise distinct.  Strings inside arrays are not among
    them. *)
Theorem requests_are_numbered scope id obj :
  meets_null obj = false ->
  exists result st,
    resolveSSMParameters scope id obj = Return (result, st)
    /\ counter st = List.length (parameters obj)
    /\ requested st = numbered id 0 (parameters obj)
    /\ NoDup (map fst (requested st)).
Proof.
  intros Hnull; unfold resolveSSMParameters.
  destruct (resolve_returns scope id obj Hnull
              {| counter := 0; requested := [] |})
    as (result & st & E & Hc & Hr).
  cbn in Hc, Hr.
  exists result, st; repeat split; try assumption.
  rewrite Hr; apply numbered_NoDup.
Qed.

Lemma requests_are_numbered_witness :
  exists result st,
    resolveSSMParameters IcebergTableStack.example_scope "Params"
      (JObj [("bucket", JStr "/service/bucket");
             ("paths", JArr [JStr "/service/ignored"]);
             ("nested", JObj [("role", JStr "/service/role");
                              ("name", JStr "plain")])])
    = Return (result, st)
    /\ counter st = 2
    /\ requested st = [("Params-1", "/service/bucket");
                       ("Params-2", "/service/role")]
    /\ NoDup (map fst (requested st)).
Proof.
  apply (requests_are_numbered IcebergTableStack.example_scope "Params").
  reflexivity.
Defined.

(** X22: [resolveSSMParameters] throws exactly when the traversal meets a
    [null], as the value given or as the value of a field at any depth of
    objects, and what it throws then is the host's TypeError. *)
Theorem null_throws scope id obj :
  (meets_null obj = true
   <-> resolveSSMParameters scope id obj = Throw TypeError)
  /\ (forall e, resolveSSMParameters scope id obj = Throw e -> e = TypeError).
Proof.
  assert (Hthrow : meets_null obj = true ->
                   resolveSSMParameters scope id obj = Throw TypeError)
    by (intros H; now apply resolve_throws).
  assert (Hback : forall e, resolveSSMParameters scope id obj = Throw e ->
                            meets_null obj = true).
  { intros e He; destruct (meets_null obj) eqn:Hn; [reflexivity|].
    destruct (requests_are_numbered scope id obj Hn) as (r & st & E & _).
    rewrite E in He; discriminate He. }
  split; [split; [exact Hthrow | apply Hback]|].
  intros e He; pose proof (Hthrow (Hback _ He)) as H.
  rewrite H in He; now injection He.
Qed.

Lemma null_throws_witness :
  resolveSSMParameters IcebergTableStack.example_scope "Params"
    (JObj [("bucket", JStr "/service/bucket");
           ("nested", JObj [("role", JNull)])])
  = Throw TypeError.
Proof.
  apply (proj1 (null_throws IcebergTableStack.example_scope "Params" _)).
  reflexivity.
Defined.

(** X23: an object in which the traversal finds nothing to resolve comes
    back equal, with no call made: no [null], no string that begins with
    "/" as the value of a field, and no key "__proto__".  What is inside
    an array does not count: an array, and so every string in it, is
    returned as it is. *)
Theorem nothing_to_resolve scope id obj :
  meets_null obj = false ->
  parameters obj = [] ->
  proto_free obj = true ->
  resolveSSMParameters scope id obj
  = Return (obj, {| counter := 0; requested := [] |}).
Proof.
  intros Hnull Hpar Hproto; now apply resolve_unchanged.
Qed.

Lemma nothing_to_resolve_witness :
  let obj := JObj [("paths", JArr [JStr "/service/bucket"; JNull]);
                   ("name", JStr "plain")] in
  resolveSSMParameters IcebergTableStack.example_scope "Params" obj
  = Return (obj, {| counter := 0; requested := [] |}).
Proof.
  intros obj; apply nothing_to_resolve; reflexivity.
Defined.

End SSMFacts.

(** * Properties of the versioned stack *)

Module Versions.

Import VersionedStack.

(** ** Reading after writing *)

Lemma lookup_replace_same k v l w :
  lookup k l = Some w -> lookup k (replace_property k v l) = Some v.
Proof.
  induction l as [|[k' v'] r IH]; cbn [lookup replace_property];
    [discriminate|].
  destruct (String.eqb k k') eqn:E; cbn [lookup]; rewrite E; auto.
Qed.

Lemma lookup_replace_other k k' v l :
  k' <> k -> lookup k' (replace_property k v l) = lookup k' l.
Proof.
  intros Hk; induction l as [|[k0 v0] r IH]; cbn [lookup replace_property];
    [reflexivity|].
  destruct (String.eqb_spec k k0) as [<-|_]; cbn [lookup].
  - destruct (String.eqb_spec k' k); [contradiction | reflexivity].
  - now rewrite IH.
Qed.

Lemma replace_same k v l :
  lookup k l = Some v -> replace_property k v l = l.
Proof.
  induction l as [|[k' v'] r IH]; cbn [lookup replace_property];
    [reflexivity|].
  destruct (String.eqb k k'); [now intros [= ->] | intros H; now rewrite IH].
Qed.

Lemma lookup_insert_same n k v l :
  array_index k = Some n -> lookup k (insert_index n k v l) = Some v.
Proof.
  intros Hk; induction l as [|[k' v'] r IH]; cbn [insert_index lookup].
  - now rewrite String.eqb_refl.
  - destruct (array_index k') as [n'|] eqn:Hk';
      [destruct (n' <? n)%N eqn:Hlt|]; cbn [lookup];
      try (now rewrite String.eqb_refl).
    destruct (String.eqb_spec k k') as [->|_]; [|exact IH].
    rewrite Hk in Hk'; injection Hk' as ->.
    rewrite N.ltb_irrefl in Hlt; discriminate Hlt.
Qed.

Lemma lookup_insert_other n k k' v l :
  k' <> k -> lookup k' (insert_index n k v l) = lookup k' l.
Proof.
  intros Hk; induction l as [|[k0 v0] r IH]; cbn [insert_index lookup].
  - destruct (String.eqb_spec k' k); [contradiction | reflexivity].
  - destruct (array_index k0) as [n0|]; [destruct (n0 <? n)%N|];
      cbn [lookup]; try (now rewrite IH);
      destruct (String.eqb_spec k' k); try contradiction; reflexivity.
Qed.

Lemma lookup_app_same k v l :
  lookup k l = None -> lookup k (l ++ [(k, v)]) = Some v.
Proof.
  induction l as [|[k' v'] r IH]; cbn [lookup app].
  - now rewrite String.eqb_refl.
  - destruct (String.eqb k k'); [discriminate | exact IH].
Qed.

Lemma lookup_app_other k k' v l :
  k' <> k -> lookup k' (l ++ [(k, v)]) = lookup k' l.
Proof.
  intros Hk; induction l as [|[k0 v0] r IH]; cbn [lookup app].
  - destruct (String.eqb_spec k' k); [contradiction | reflexivity].
  - now rewrite IH.
Qed.

Lemma lookup_set_same k v l : lookup k (set_property k v l) = Some v.
Proof.
  unfold set_property; destruct (lookup k l) as [w|] eqn:Hl.
  - now apply (lookup_replace_same k v l w).
  - unfold create_property; destruct (array_index k) as [n|] eqn:Hk.
    + now apply lookup_insert_same.
    + now apply lookup_app_same.
Qed.

Lemma lookup_set_other k k' v l :
  k' <> k -> lookup k' (set_property k v l) = lookup k' l.
Proof.
  intros Hk; unfold set_property; destruct (lookup k l).
  - now apply lookup_replace_other.
  - unfold create_property; destruct (array_index k).
    + now apply lookup_insert_other.
    + now apply lookup_app_other.
Qed.

Lemma set_same k v l : lookup k l = Some v -> set_property k v l = l.
Proof.
  intros H; unfold set_property; rewrite H; now apply replace_same.
Qed.

(** ** The check of the format *)

Lemma checked_returned k found v :
  checked k found = Returned v ->
  truthy v = true /\ text_throws v = false /\ version_test v = true.
Proof.
  destruct found as [w| |]; cbn [checked].
  - destruct (truthy w) eqn:Ht; [|intros [= <-]; repeat split].
    destruct (text_throws w) eqn:Hx; [discriminate|].
    destruct (version_test w) eqn:Hv; [|discriminate].
    intros [= <-]; repeat split; assumption.
  - discriminate.
  - intros [= <-]; repeat split.
Qed.

Lemma checked_own k v :
  truthy v = true -> text_throws v = false -> version_test v = true ->
  checked k (Own v) = Returned v.
Proof. intros Ht Hx Hv; cbn [checked]; now rewrite Ht, Hx, Hv. Qed.

Lemma checked_source k found v :
  checked k found = Returned v -> found = Own v \/ v = JStr "0.0.1".
Proof.
  destruct found as [w| |]; cbn [checked].
  - destruct (truthy w); [|intros [= <-]; now right].
    destruct (text_throws w); [discriminate|].
    destruct (version_test w); [|discriminate].
    intros [= <-]; now left.
  - discriminate.
  - intros [= <-]; now right.
Qed.

(** What a call that returns on an object has read and written. *)
Lemma getVersion_object k fields v file' :
  getVersion k (JObj fields) = Returned (v, file') ->
  exists packageJson stackVersions,
    lookup "stackVersions" packageJson = Some (JObj stackVersions)
    /\ (forall key, key <> "stackVersions" ->
                    lookup key packageJson = lookup key fields)
    /\ stackVersions = versions_of (JObj fields)
    /\ checked k (read stackVersions k) = Returned v
    /\ file' = JObj (set_property "stackVersions"
                       (JObj (set_property k v stackVersions)) packageJson).
Proof.
  cbn [getVersion]; unfold versions_of; cbn [get].
  destruct (lookup "stackVersions" fields) as [sv|] eqn:Hsv.
  - destruct (truthy sv) eqn:Ht.
    + rewrite Hsv.
      destruct sv as [| b | z | s | items | versions]; try discriminate.
      destruct (checked k (read versions k)) as [cv| |] eqn:Hc;
        try discriminate.
      intros [= <- <-]; exists fields, versions; repeat split; auto.
    + rewrite lookup_set_same.
      destruct (checked k (read [] k)) as [cv| |] eqn:Hc; try discriminate.
      intros [= <- <-].
      exists (set_property "stackVersions" (JObj []) fields), [].
      split; [apply lookup_set_same|].
      split; [intros key Hkey; now apply lookup_set_other|].
      split; [|split; [exact Hc | reflexivity]].
      destruct sv; try reflexivity; discriminate Ht.
  - rewrite lookup_set_same.
    destruct (checked k (read [] k)) as [cv| |] eqn:Hc; try discriminate.
    intros [= <- <-].
    exists (set_property "stackVersions" (JObj []) fields), [].
    split; [apply lookup_set_same|].
    split; [intros key Hkey; now apply lookup_set_other|].
    repeat split; exact Hc.
Qed.

(** X24: a call that returns leaves package.json in a state that the
    next call for the same stack neither changes nor reads differently:
    the second call returns the same version and writes the same
    content. *)
Theorem getVersion_stable k file v file' :
  getVersion k file = Returned (v, file') ->
  getVersion k file' = Returned (v, file').
Proof.
  destruct file as [| b | z | s | items | fields]; try discriminate.
  - cbn [getVersion].
    destruct (checked k (read [] k)) as [cv| |] eqn:Hc; try discriminate.
    intros [= <- <-]; cbn [getVersion]; now rewrite Hc.
  - intros H.
    destruct (getVersion_object _ _ _ _ H)
      as (pkg & versions & Hsv & _ & _ & Hc & ->).
    destruct (checked_returned _ _ _ Hc) as (Ht & Hx & Hv).
    set (versions' := set_property k v versions).
    set (pkg' := set_property "stackVersions" (JObj versions') pkg).
    assert (Hsv' : lookup "stackVersions" pkg' = Some (JObj versions'))
      by apply lookup_set_same.
    assert (Hk : lookup k versions' = Some v) by apply lookup_set_same.
    cbn [getVersion]; rewrite Hsv'; cbn [truthy]; rewrite Hsv'.
    unfold read; rewrite Hk, (checked_own k v Ht Hx Hv).
    now rewrite (set_same k v versions' Hk), (set_same _ _ pkg' Hsv').
Qed.

Lemma getVersion_stable_witness :
  let file' := JObj [("name", JStr "app");
                     ("stackVersions", JObj [("Bucket", JStr "0.0.1")])] in
  getVersion "Bucket" file' = Returned (JStr "0.0.1", file').
Proof.
  intros file'.
  apply (getVersion_stable "Bucket" (JObj [("name", JStr "app")])).
  reflexivity.
Defined.



(** X26: the version a call returns has the format, and it is the entry
    package.json holds for the stack or, failing one, "0.0.1". *)
Theorem getVersion_returns_version k file v file' :
  getVersion k file = Returned (v, file') ->
  version_test v = true
  /\ (lookup k (versions_of file) = Some v \/ v = JStr "0.0.1").
Proof.
  assert (Hread : forall versions,
             checked k (read versions k) = Returned v ->
             lookup k versions = Some v \/ v = JStr "0.0.1").
  { intros versions Hc; destruct (checked_source _ _ _ Hc) as [Ho | Hd];
      [left | now right].
    unfold read in Ho; destruct (lookup k versions);
      [now injection Ho as -> |].
    destruct (Str.includes OBJECT_PROTOTYPE_KEYS k); discriminate Ho. }
  destruct file as [| b | z | s | items | fields]; try discriminate.
  - cbn [getVersion].
    destruct (checked k (read [] k)) as [cv| |] eqn:Hc; try discriminate.
    intros [= <- <-]; split; [apply (checked_returned _ _ _ Hc)|].
    now apply Hread.
  - intros H.
    destruct (getVersion_object _ _ _ _ H)
      as (pkg & versions & _ & _ & -> & Hc & _).
    split; [apply (checked_returned _ _ _ Hc) | now apply Hread].
Qed.

Lemma getVersion_returns_version_witness :
  version_test (JStr "1.2.3") = true
  /\ (lookup "Table"
        (versions_of (JObj [("stackVersions",
                             JObj [("Table", JStr "1.2.3")])]))
      = Some (JStr "1.2.3")
      \/ JStr "1.2.3" = JStr "0.0.1").
Proof.
  apply (getVersion_returns_version "Table"
           (JObj [("stackVersions", JObj [("Table", JStr "1.2.3")])])
           (JStr "1.2.3")
           (JObj [("stackVersions", JObj [("Table", JStr "1.2.3")])])).
  reflexivity.
Defined.

(** ** The format *)

Lemma skip_digits_app a r :
  Str.forallb digit a = true -> no_digit_ahead r -> skip_digits (a ++ r) = r.
Proof.
  intros Ha Hr; induction a as [|c a IH]; cbn [append].
  - destruct r as [|d r]; [reflexivity|]; cbn in *; now rewrite Hr.
  - cbn in Ha; apply andb_true_iff in Ha as [Hc Ha].
    cbn [skip_digits]; rewrite Hc; auto.
Qed.

Lemma number_then_app a r :
  numeral a -> no_digit_ahead r -> number_then (a ++ r) = Some r.
Proof.
  intros [Ha Hne] Hr; destruct a as [|c a]; [contradiction|].
  cbn in Ha; apply andb_true_iff in Ha as [Hc Ha].
  cbn [append number_then]; rewrite Hc; f_equal.
  now apply skip_digits_app.
Qed.

Lemma skip_digits_split s :
  exists a, Str.forallb digit a = true /\ s = a ++ skip_digits s.
Proof.
  induction s as [|c s (a & Ha & IH)]; [now exists ""|].
  cbn [skip_digits]; destruct (digit c) eqn:Hc.
  - exists (String c a); cbn; rewrite Hc, Ha; split; [reflexivity|].
    now rewrite <- IH.
  - now exists "".
Qed.

Lemma number_then_split s r :
  number_then s = Some r -> exists a, numeral a /\ s = a ++ r.
Proof.
  destruct s as [|c s]; [discriminate|]; cbn [number_then].
  destruct (digit c) eqn:Hc; [|discriminate].
  intros [= <-]; destruct (skip_digits_split s) as (a & Ha & E).
  exists (String c a); split; [split; [cbn; now rewrite Hc | discriminate]|].
  cbn [append]; now rewrite <- E.
Qed.

Lemma dot_then_split s r : dot_then s = Some r -> s = "." ++ r.
Proof.
  destruct s as [|c s]; [discriminate|]; cbn [dot_then].
  destruct (Ascii.eqb_spec c "."); [|discriminate].
  now intros [= <-]; subst c.
Qed.

(** X27: the format the versions are tested against is three non-empty
    runs of decimal digits with a "." between them, and nothing before,
    after or in between. *)
Theorem versionRegex_test_iff s :
  versionRegex_test s = true
  <-> exists major minor patch,
      numeral major /\ numeral minor /\ numeral patch
      /\ s = major ++ "." ++ minor ++ "." ++ patch.
Proof.
  unfold versionRegex_test; split.
  - destruct (number_then s) as [r1|] eqn:H1; [|discriminate].
    cbn [and_then]; destruct (dot_then r1) as [r2|] eqn:H2; [|discriminate].
    cbn [and_then]; destruct (number_then r2) as [r3|] eqn:H3; [|discriminate].
    cbn [and_then]; destruct (dot_then r3) as [r4|] eqn:H4; [|discriminate].
    cbn [and_then]; destruct (number_then r4) as [r5|] eqn:H5; [|discriminate].
    intros Hend; destruct r5; [|discriminate Hend].
    apply number_then_split in H1 as (a & Ha & ->).
    apply dot_then_split in H2 as ->.
    apply number_then_split in H3 as (b & Hb & ->).
    apply dot_then_split in H4 as ->.
    apply number_then_split in H5 as (c & Hc & ->).
    exists a, b, c; repeat split; try apply Ha; try apply Hb; try apply Hc.
    now rewrite SanitizerEdges.append_empty.
  - intros (a & b & c & Ha & Hb & Hc & ->).
    rewrite (number_then_app a) by (assumption || reflexivity).
    cbn [and_then append dot_then]; rewrite Ascii.eqb_refl; cbn [and_then].
    rewrite (number_then_app b) by (assumption || reflexivity).
    cbn [and_then append dot_then]; rewrite Ascii.eqb_refl; cbn [and_then].
    rewrite <- (SanitizerEdges.append_empty c).
    rewrite (number_then_app c) by (assumption || exact I).
    reflexivity.
Qed.

Lemma versionRegex_test_iff_witness : versionRegex_test "12.0.7" = true.
Proof.
  apply (proj2 (versionRegex_test_iff "12.0.7")).
  exists "12", "0", "7"; repeat split; discriminate.
Defined.

(** ** The stack of a construct id *)

Lemma split_part a r :
  dashless a = true -> split "-" (a ++ "-" ++ r) = a :: split "-" r.
Proof.
  unfold dashless; induction a as [|c a IH]; cbn; [reflexivity|].
  intros H; apply andb_true_iff in H as [Hc Ha].
  apply negb_true_iff in Hc; rewrite Hc.
  cbn in IH; now rewrite (IH Ha).
Qed.

Lemma split_last a : dashless a = true -> split "-" a = [a].
Proof.
  unfold dashless; induction a as [|c a IH]; cbn; [reflexivity|].
  intros H; apply andb_true_iff in H as [Hc Ha].
  apply negb_true_iff in Hc; rewrite Hc.
  now rewrite (IH Ha).
Qed.

(** X28: the stack a construct id stands for is its third part between
    dashes, alone: what comes after a third dash is dropped, and the first
    two parts do not count, so ids that differ only there share one
    version.  An id of fewer than three parts stands for the stack
    "undefined". *)
Theorem stackId_third_part a b c :
  dashless a = true -> dashless b = true -> dashless c = true ->
  stackId (a ++ "-" ++ b ++ "-" ++ c) = c
  /\ (forall rest, stackId (a ++ "-" ++ b ++ "-" ++ c ++ "-" ++ rest) = c)
  /\ stackId a = "undefined"
  /\ stackId (a ++ "-" ++ b) = "undefined".
Proof.
  intros Ha Hb Hc; unfold stackId; repeat split.
  - now rewrite (split_part a), (split_part b), (split_last c).
  - intros rest.
    now rewrite (split_part a), (split_part b), (split_part c).
  - now rewrite (split_last a).
  - now rewrite (split_part a), (split_last b).
Qed.

Lemma stackId_third_part_witness :
  stackId "DataLakehouse-dev-SomeStackId-Nested-MoreNested" = "SomeStackId"
  /\ stackId "iceberg-example" = "undefined".
Proof.
  destruct (stackId_third_part "DataLakehouse" "dev" "SomeStackId"
              eq_refl eq_refl eq_refl) as (_ & Hrest & _).
  destruct (stackId_third_part "iceberg" "example" ""
              eq_refl eq_refl eq_refl) as (_ & _ & _ & Hshort).
  split; [exact (Hrest "Nested-MoreNested") | exact Hshort].
Defined.

End Versions.
